(** * Embedded firmware foundation: boot path, time base and critical sections

    A shallow embedding of the Cortex-M4 firmware sources
    ([src/startup.cpp], [src/system.cpp], [include/types.hpp],
    [include/config.hpp], [hal/uart.hpp]).

    Modelling conventions.
    - A [u32] is a [Z] in [0, 2^32); arithmetic that can leave the range is
      wrapped explicitly with [wrap32].  The target is ILP32, so
      [unsigned long] is 32 bits wide as well.
    - Memory is a finite map from byte addresses to 32-bit words; an
      address that was never written reads as 0.  Pointers to [uint32_t]
      advance by 4.
    - The foreground context is a state-passing computation over [machine].
      A computation either returns ([Done]) or is still executing when its
      fuel ends ([Spinning]); the machine reached so far is kept in both
      cases, so that code which never returns can still be observed.
    - Every [__asm volatile] statement is a preemption point: the interrupt
      schedule [irq] of the machine says how many SysTick interrupts are
      taken there.
    - [System::s_tickCount] is a field of the machine, not a word of [mem]:
      a store through a pointer never reaches it.  In the program it is a
      zero-initialised static that the bss fill of the reset handler
      clears; the statements about the reset handler speak of [mem] only
      and say nothing about the counter. *)

From Stdlib Require Import ZArith Lia List Bool.
From stdpp Require Import base tactics option list gmap strings.

Local Open Scope Z_scope.

(** ** Fixed-width integers and status codes (types.hpp) *)

Definition wrap32 (z : Z) : Z := z mod 2 ^ 32.
Definition is_u32 (z : Z) : Prop := 0 <= z < 2 ^ 32.

Inductive Status : Type :=
| Ok | Error | Busy | Timeout | InvalidArg
| NotReady | NoMemory | NotFound | Permission | HwError.

Definition Status_code (st : Status) : Z :=
  match st with
  | Ok => 0 | Error => 1 | Busy => 2 | Timeout => 3 | InvalidArg => 4
  | NotReady => 5 | NoMemory => 6 | NotFound => 7 | Permission => 8
  | HwError => 9
  end.

(** ** Configuration constants (config.hpp) *)

Definition SYSTEM_CLOCK_HZ : Z := 168000000.
Definition TICK_RATE_HZ : Z := 1000.
Definition UART_BUFFER_SIZE : Z := 256.

(** ** The machine *)

Inductive asm : Type :=
| nop | wfi | dsb | mrs_primask | cpsid_i | msr_primask.

(** Callees of the reset handler: the application entry point, or a
    constructor taken from one of the init arrays. *)
Inductive fn : Type :=
| fn_main
| fn_ptr (addr : Z).

Inductive event : Type :=
| EvAsm (i : asm)            (* an [__asm volatile] statement *)
| EvRead (addr val : Z)      (* load through a [volatile u32*] register pointer *)
| EvWrite (addr val : Z)     (* store through a [volatile u32*] register pointer *)
| EvTick (val : Z)           (* foreground read of the volatile [s_tickCount] *)
| EvCall (f : fn).           (* call of [f] *)

Record machine : Type := Machine {
  primask : bool;            (* PRIMASK.PM: true = maskable interrupts disabled *)
  s_tickCount : Z;           (* System::s_tickCount *)
  mem : gmap Z Z;            (* words, by byte address *)
  trace : list event;        (* what the foreground context did, oldest first *)
  now : nat;                 (* preemption points passed so far *)
  irq : nat -> nat           (* SysTick interrupts taken at each preemption point *)
}.

Definition set_primask (b : bool) (s : machine) : machine :=
  Machine b (s_tickCount s) (mem s) (trace s) (now s) (irq s).
Definition set_tickCount (t : Z) (s : machine) : machine :=
  Machine (primask s) t (mem s) (trace s) (now s) (irq s).
Definition set_mem (m : gmap Z Z) (s : machine) : machine :=
  Machine (primask s) (s_tickCount s) m (trace s) (now s) (irq s).
Definition log (e : event) (s : machine) : machine :=
  Machine (primask s) (s_tickCount s) (mem s) (trace s ++ [e]) (now s) (irq s).
Definition advance (s : machine) : machine :=
  Machine (primask s) (s_tickCount s) (mem s) (trace s) (S (now s)) (irq s).

(** ** Computations *)

Inductive outcome (A : Type) : Type :=
| Done (a : A) (s : machine)     (* returned [a] *)
| Spinning (s : machine).        (* has not returned; [s] is where it got to *)
Arguments Done {A} a s.
Arguments Spinning {A} s.

Definition M (A : Type) : Type := machine -> outcome A.

Definition ret {A} (a : A) : M A := fun s => Done a s.
Definition bind {A B} (m : M A) (k : A -> M B) : M B :=
  fun s => match m s with
           | Done a s' => k a s'
           | Spinning s' => Spinning s'
           end.

Notation "'do' x <- m ; k" := (bind m (fun x => k))
  (at level 10, x name, m at level 100, k at level 200).

Definition state_of {A} (o : outcome A) : machine :=
  match o with Done _ s => s | Spinning s => s end.

Definition modify (f : machine -> machine) : M unit := fun s => Done tt (f s).
Definition gets {A} (f : machine -> A) : M A := fun s => Done (f s) s.

(** Plain accesses, and accesses through a [volatile] pointer. *)
Definition load (a : Z) : M Z := gets (fun s => mem s !!! a).
Definition store (a v : Z) : M unit :=
  modify (fun s => set_mem (<[a := v]> (mem s)) s).
Definition vload (a : Z) : M Z :=
  fun s => Done (mem s !!! a) (log (EvRead a (mem s !!! a)) s).
Definition vstore (a v : Z) : M unit :=
  modify (fun s => log (EvWrite a v) (set_mem (<[a := v]> (mem s)) s)).

(** ** SysTick interrupt (system.cpp)

    [embedded::System::s_tickCount++] on a [volatile u32]. *)
Definition SysTick_Handler (s : machine) : machine :=
  set_tickCount (wrap32 (s_tickCount s + 1)) s.

Definition preempt (s : machine) : machine :=
  Nat.iter (irq s (now s)) SysTick_Handler (advance s).

Definition asm_volatile (i : asm) : M unit :=
  modify (fun s => preempt (log (EvAsm i) s)).

(** [while (true) { __asm volatile ("nop"); }]: there is no way out of the
    loop, so the result type is empty. *)
Fixpoint while_true_nop (fuel : nat) : M Empty_set :=
  fun s =>
    match fuel with
    | O => Spinning s
    | S fuel' => (do _ <- asm_volatile nop; while_true_nop fuel') s
    end.

(** ** Critical section helpers (types.hpp) *)

Definition disableInterrupts : M Z :=
  do primask_v <- gets (fun s => Z.b2z (primask s));   (* mrs %0, primask *)
  do _ <- asm_volatile mrs_primask;
  do _ <- modify (set_primask true);                   (* cpsid i *)
  do _ <- asm_volatile cpsid_i;
  ret primask_v.

Definition restoreInterrupts (primask_v : Z) : M unit :=
  do _ <- modify (set_primask (Z.testbit primask_v 0));   (* msr primask, %0 *)
  asm_volatile msr_primask.

Record CriticalSection : Type := { m_primask : Z }.

Definition CriticalSection_ctor : M CriticalSection :=
  do p <- disableInterrupts; ret {| m_primask := p |}.

Definition CriticalSection_dtor (cs : CriticalSection) : M unit :=
  restoreInterrupts (m_primask cs).

(** Two guards in nested scopes:
    [{ CriticalSection outer; { CriticalSection inner; } }].
    The value returned is the mask seen between the two closing braces. *)
Definition nested_guards : M bool :=
  do outer <- CriticalSection_ctor;
  do inner <- CriticalSection_ctor;
  do _ <- CriticalSection_dtor inner;
  do between <- gets primask;
  do _ <- CriticalSection_dtor outer;
  ret between.

(** ** System (system.cpp) *)

Module System.

Definition AIRCR : Z := 0xE000ED0C.
Definition SCR : Z := 0xE000ED10.
Definition SYST_CSR : Z := 0xE000E010.
Definition SYST_RVR : Z := 0xE000E014.
Definition SYST_CVR : Z := 0xE000E018.
Definition UID_BASE : Z := 0x1FFF7A10.

Definition initClocks : M unit := ret tt.

Definition initSysTick : M unit :=
  let reloadValue := wrap32 (SYSTEM_CLOCK_HZ / TICK_RATE_HZ - 1) in
  do _ <- vstore SYST_RVR reloadValue;
  do _ <- vstore SYST_CVR 0;
  vstore SYST_CSR (Z.lor (Z.lor (Z.shiftl 1 0) (Z.shiftl 1 1)) (Z.shiftl 1 2)).

Definition initNvic : M unit :=
  vstore AIRCR (Z.lor (Z.shiftl 0x5FA 16) (Z.shiftl 3 8)).

Definition init : M Status :=
  do _ <- initClocks;
  do _ <- initSysTick;
  do _ <- initNvic;
  ret Ok.

Definition reset (fuel : nat) : M Empty_set :=
  do _ <- vstore AIRCR (Z.lor (Z.shiftl 0x5FA 16) (Z.shiftl 1 2));
  while_true_nop fuel.

Definition read_tickCount : M Z :=
  fun s => Done (s_tickCount s) (log (EvTick (s_tickCount s)) s).

Definition getTicks : M Z := read_tickCount.

Fixpoint delayMs_loop (fuel : nat) (start ms : Z) : M unit :=
  fun s =>
    match fuel with
    | O => Spinning s
    | S fuel' =>
        (do t <- read_tickCount;
         if wrap32 (t - start) <? ms
         then do _ <- asm_volatile nop; delayMs_loop fuel' start ms
         else ret tt) s
    end.

Definition delayMs (fuel : nat) (ms : Z) : M unit :=
  do start <- read_tickCount;
  delayMs_loop fuel start ms.

(** [while (cycles--)]: the old value is tested, the decrement wraps. *)
Fixpoint delayUs_loop (fuel : nat) (cycles : Z) : M unit :=
  fun s =>
    match fuel with
    | O => Spinning s
    | S fuel' =>
        if negb (cycles =? 0)
        then (do _ <- asm_volatile nop;
              delayUs_loop fuel' (wrap32 (cycles - 1))) s
        else Done tt s
    end.

(** [(SYSTEM_CLOCK_HZ / 1000000) * us / 4] in 32-bit unsigned arithmetic. *)
Definition delayUs_cycles (us : Z) : Z :=
  wrap32 (wrap32 (SYSTEM_CLOCK_HZ / 1000000) * us) / 4.

Definition delayUs (fuel : nat) (us : Z) : M unit :=
  delayUs_loop fuel (delayUs_cycles us).

Definition getSystemClock : M Z := ret (wrap32 SYSTEM_CLOCK_HZ).

Definition sleep : M unit := asm_volatile wfi.

Definition deepSleep : M unit :=
  do v <- vload SCR;
  do _ <- vstore SCR (Z.lor v (Z.shiftl 1 2));
  do _ <- asm_volatile dsb;
  do _ <- asm_volatile wfi;
  do v' <- vload SCR;
  vstore SCR (Z.land v' (wrap32 (Z.lnot (Z.shiftl 1 2)))).

Definition getUniqueId (id : Z) : M unit :=
  do w0 <- vload (UID_BASE + 4 * 0);
  do _ <- store (id + 4 * 0) w0;
  do w1 <- vload (UID_BASE + 4 * 1);
  do _ <- store (id + 4 * 1) w1;
  do w2 <- vload (UID_BASE + 4 * 2);
  store (id + 4 * 2) w2.

Definition enablePeripheralClock (peripheral : Z) : M Status := ret Ok.
Definition disablePeripheralClock (peripheral : Z) : M Status := ret Ok.

End System.

(** ** Startup code and vector table (startup.cpp) *)

Module Startup.

(** What the linker script and the rest of the program provide: the section
    boundary symbols, the two constructor arrays, and the code behind
    every function the reset handler calls. *)
Record image : Type := Image {
  _estack : Z;
  _sidata : Z;
  _sdata : Z;
  _edata : Z;
  _sbss : Z;
  _ebss : Z;
  __preinit_array : list Z;
  __init_array : list Z;
  code : fn -> M unit
}.

Inductive vector : Type :=
| InitialSP (sym : string)     (* address of [sym], cast to a handler pointer *)
| Handler (sym : string)
| Reserved.                    (* [nullptr] *)

Definition g_pfnVectors : list vector :=
  [ InitialSP "_estack";
    Handler "Reset_Handler";
    Handler "NMI_Handler";
    Handler "HardFault_Handler";
    Handler "MemManage_Handler";
    Handler "BusFault_Handler";
    Handler "UsageFault_Handler";
    Reserved; Reserved; Reserved; Reserved;
    Handler "SVC_Handler";
    Handler "DebugMon_Handler";
    Reserved;
    Handler "PendSV_Handler";
    Handler "SysTick_Handler";
    Handler "WWDG_IRQHandler";
    Handler "PVD_IRQHandler";
    Handler "TAMP_STAMP_IRQHandler";
    Handler "RTC_WKUP_IRQHandler";
    Handler "FLASH_IRQHandler";
    Handler "RCC_IRQHandler";
    Handler "EXTI0_IRQHandler";
    Handler "EXTI1_IRQHandler";
    Handler "EXTI2_IRQHandler";
    Handler "EXTI3_IRQHandler";
    Handler "EXTI4_IRQHandler";
    Handler "DMA1_Stream0_IRQHandler";
    Handler "DMA1_Stream1_IRQHandler";
    Handler "DMA1_Stream2_IRQHandler";
    Handler "DMA1_Stream3_IRQHandler";
    Handler "DMA1_Stream4_IRQHandler";
    Handler "DMA1_Stream5_IRQHandler";
    Handler "DMA1_Stream6_IRQHandler";
    Handler "ADC_IRQHandler";
    Reserved; Reserved; Reserved; Reserved;
    Handler "EXTI9_5_IRQHandler";
    Handler "TIM1_BRK_TIM9_IRQHandler";
    Handler "TIM1_UP_TIM10_IRQHandler";
    Reserved; Reserved;
    Handler "TIM2_IRQHandler";
    Handler "TIM3_IRQHandler";
    Handler "TIM4_IRQHandler";
    Handler "I2C1_EV_IRQHandler";
    Handler "I2C1_ER_IRQHandler";
    Handler "I2C2_EV_IRQHandler";
    Handler "I2C2_ER_IRQHandler";
    Handler "SPI1_IRQHandler";
    Handler "SPI2_IRQHandler";
    Handler "USART1_IRQHandler";
    Handler "USART2_IRQHandler";
    Handler "USART3_IRQHandler" ].

Section Image.

Variable img : image.

(** [while (dst < &_edata) { *dst++ = *src++; }] *)
Fixpoint copy_data (fuel : nat) (src dst : Z) : M unit :=
  fun s =>
    match fuel with
    | O => Spinning s
    | S fuel' =>
        if dst <? _edata img
        then (do w <- load src;
              do _ <- store dst w;
              copy_data fuel' (src + 4) (dst + 4)) s
        else Done tt s
    end.

(** [while (dst < &_ebss) { *dst++ = 0; }] *)
Fixpoint zero_bss (fuel : nat) (dst : Z) : M unit :=
  fun s =>
    match fuel with
    | O => Spinning s
    | S fuel' =>
        if dst <? _ebss img
        then (do _ <- store dst 0; zero_bss fuel' (dst + 4)) s
        else Done tt s
    end.

Definition call (f : fn) : M unit :=
  do _ <- modify (log (EvCall f)); code img f.

(** [for (p = array_start; p < array_end; ++p)]: call what [p] points to. *)
Fixpoint call_array (array : list Z) : M unit :=
  match array with
  | [] => ret tt
  | p :: rest => do _ <- call (fn_ptr p); call_array rest
  end.

Definition Reset_Handler (fuel : nat) : M Empty_set :=
  do _ <- copy_data fuel (_sidata img) (_sdata img);
  do _ <- zero_bss fuel (_sbss img);
  do _ <- call_array (__preinit_array img);
  do _ <- call_array (__init_array img);
  do _ <- call fn_main;
  while_true_nop fuel.

Definition Default_Handler (fuel : nat) : M Empty_set := while_true_nop fuel.

End Image.

End Startup.

(** ** UART transmit ring buffer (hal/uart.hpp) *)

Module UART.

(** The transmit side of a [UART] object: the private members declared
    in the header, and the two pieces of peripheral state the transmit
    path acts on. *)
Record state : Type := State {
  m_txCallback : Z;
  m_txContext : Z;
  m_txBuffer : list Z;       (* [u8 m_txBuffer[UART_BUFFER_SIZE]] *)
  m_txHead : Z;              (* [volatile u16] *)
  m_txTail : Z;              (* [volatile u16] *)
  txeie : bool;              (* TX-empty interrupt enabled *)
  wire : list Z              (* bytes written to the data register, oldest first *)
}.

Definition tx_count (u : state) : Z :=
  (m_txHead u - m_txTail u) mod UART_BUFFER_SIZE.
Definition tx_free (u : state) : Z := UART_BUFFER_SIZE - 1 - tx_count u.

Definition push (b : Z) (u : state) : state :=
  State (m_txCallback u) (m_txContext u)
        (<[Z.to_nat (m_txHead u) := b]> (m_txBuffer u))
        ((m_txHead u + 1) mod UART_BUFFER_SIZE) (m_txTail u)
        (txeie u) (wire u).

Definition write_direct (b : Z) (u : state) : state :=
  State (m_txCallback u) (m_txContext u) (m_txBuffer u)
        (m_txHead u) (m_txTail u) true (wire u ++ [b]).

Definition set_callback (cb ctx : Z) (u : state) : state :=
  State cb ctx (m_txBuffer u) (m_txHead u) (m_txTail u) (txeie u) (wire u).

(** Modelled from the spec: the part of [UART::transmitIT] that runs with
    interrupts masked; the repository has the declaration of the
    function only.  "Enqueues bytes into the TX ring buffer under a
    critical section; if the TX-empty interrupt is not currently enabled,
    it writes the first byte directly and enables the TX interrupt.
    Returns NoMemory if the buffer cannot accept len bytes." *)
Definition enqueue (data : list Z) (cb ctx : Z) (u : state) : Status * state :=
  if tx_free u <? Z.of_nat (length data)
  then (NoMemory, u)
  else
    let u1 := set_callback cb ctx u in
    match data with
    | [] => (Ok, u1)
    | b :: rest =>
        if txeie u1
        then (Ok, foldl (fun u' b' => push b' u') u1 data)
        else (Ok, foldl (fun u' b' => push b' u') (write_direct b u1) rest)
    end.






End UART.

(** ** Observations used in the statements *)

(** Interrupts taken at the [k] preemption points from [from] on. *)
Fixpoint taken (sched : nat -> nat) (from k : nat) : nat :=
  match k with
  | O => 0
  | S k' => sched from + taken sched (S from) k'
  end.

(** The counter after [n] runs of the SysTick handler. *)
Definition increments (n : nat) (t : Z) : Z :=
  Nat.iter n (fun t' => wrap32 (t' + 1)) t.

(** The counter [j] preemption points after [s]. *)
Definition tick_at (s : machine) (j : nat) : Z :=
  increments (taken (irq s) (now s) j) (s_tickCount s).

(** [now - start] of [delayMs], as unsigned 32-bit subtraction, when
    [start] was read in [s] and [now] is read [j] preemption points later. *)
Definition elapsed (s : machine) (j : nat) : Z :=
  wrap32 (tick_at s j - s_tickCount s).

(** One no-op, with the interrupts taken after it. *)
Definition nop_step (s : machine) : machine := preempt (log (EvAsm nop) s).

(** One turn of the [delayMs] loop: read the counter, execute the no-op. *)
Definition poll (s : machine) : machine :=
  nop_step (log (EvTick (s_tickCount s)) s).

(** What the foreground context does in [k] turns of that loop. *)
Definition polls_trace (s : machine) (k : nat) : list event :=
  flat_map (fun j => [EvTick (tick_at s j); EvAsm nop]) (seq 0 k).

(** The machine in which [delayMs], entered in [s], leaves its loop after
    [k] turns: the counter was read once for [start], once per turn, and
    once more for the test that failed. *)
Definition delayMs_exit (s : machine) (k : nat) : machine :=
  log (EvTick (tick_at s k))
      (Nat.iter k poll (log (EvTick (s_tickCount s)) s)).

(** The machine after the constructor at [p] has been called in [s] and
    has run. *)
Definition ran (img : Startup.image) (s : machine) (p : Z) : machine :=
  state_of (Startup.code img (fn_ptr p) (log (EvCall (fn_ptr p)) s)).

Definition calls_of (t : list event) : list fn :=
  flat_map (fun e => match e with EvCall f => [f] | _ => [] end) t.

(** The only way the counter moves between [s] and [s']: one increment per
    interrupt taken at the preemption points in between. *)
Definition ticks_by_isr_only (s s' : machine) : Prop :=
  irq s' = irq s /\
  exists k : nat,
    now s' = (now s + k)%nat /\
    s_tickCount s' = tick_at s k.

(** A computation that moves the counter in no other way. *)
Definition quiet {A} (m : M A) : Prop :=
  forall s, ticks_by_isr_only s (state_of (m s)).

(** The public operations of [System]. *)
Inductive api : Type :=
| Init | Reset | GetTicks | DelayMs (ms : Z) | DelayUs (us : Z)
| GetSystemClock | Sleep | DeepSleep | GetUniqueId (id : Z)
| EnablePeripheralClock (peripheral : Z)
| DisablePeripheralClock (peripheral : Z).

Definition discard {A} (m : M A) : M unit := do _ <- m; ret tt.

Definition run_api (fuel : nat) (op : api) : M unit :=
  match op with
  | Init => discard System.init
  | Reset => discard (System.reset fuel)
  | GetTicks => discard System.getTicks
  | DelayMs ms => System.delayMs fuel ms
  | DelayUs us => System.delayUs fuel us
  | GetSystemClock => discard System.getSystemClock
  | Sleep => System.sleep
  | DeepSleep => System.deepSleep
  | GetUniqueId id => System.getUniqueId id
  | EnablePeripheralClock p => discard (System.enablePeripheralClock p)
  | DisablePeripheralClock p => discard (System.disablePeripheralClock p)
  end.

Fixpoint run_apis (fuel : nat) (ops : list api) : M unit :=
  match ops with
  | [] => ret tt
  | op :: rest => do _ <- run_api fuel op; run_apis fuel rest
  end.

(** ** Bit macros (types.hpp)

    The macros act on an lvalue; here each returns the new value of the
    register.  [BIT(n)] is [1UL << n], and [~(bit)] is taken in 32 bits. *)

Definition BIT (n : Z) : Z := wrap32 (Z.shiftl 1 n).
Definition SET_BIT (reg bit : Z) : Z := Z.lor reg bit.
Definition CLEAR_BIT (reg bit : Z) : Z := Z.land reg (wrap32 (Z.lnot bit)).
Definition READ_BIT (reg bit : Z) : Z := Z.land reg bit.
Definition TOGGLE_BIT (reg bit : Z) : Z := Z.lxor reg bit.

(** [depth] guards in nested scopes around [body]. *)
Fixpoint guarded (depth : nat) (body : M unit) : M unit :=
  match depth with
  | O => body
  | S depth' =>
      do cs <- CriticalSection_ctor;
      do _ <- guarded depth' body;
      CriticalSection_dtor cs
  end.

(** ** Text formatting in the application loops (main.cpp, blinky.cpp)

    Both [main] functions format a [u32] in decimal into a local [char]
    array before printing it.  The arrays are not initialised, so the
    functions take their starting contents as arguments; an access outside
    an array is reported as [OutOfBounds]. *)

Module App.

Inductive result (A : Type) : Type :=
| Val (a : A)
| OutOfBounds
| OutOfFuel.
Arguments Val {A} a.
Arguments OutOfBounds {A}.
Arguments OutOfFuel {A}.

Definition rbind {A B} (m : result A) (k : A -> result B) : result B :=
  match m with
  | Val a => k a
  | OutOfBounds => OutOfBounds
  | OutOfFuel => OutOfFuel
  end.

Notation "'try' x <- m ; k" := (rbind m (fun x => k))
  (at level 10, x name, m at level 100, k at level 200).

Definition array_put (a : list Z) (i c : Z) : result (list Z) :=
  if (0 <=? i) && (i <? Z.of_nat (length a))
  then Val (<[Z.to_nat i := c]> a)
  else OutOfBounds.

Definition array_get (a : list Z) (i : Z) : result Z :=
  if 0 <=? i
  then match a !! Z.to_nat i with
       | Some c => Val c
       | None => OutOfBounds
       end
  else OutOfBounds.

(** [while (value > 0) { temp[tempIdx++] = '0' + (value % 10); value /= 10; }] *)
Fixpoint digits_loop (fuel : nat) (value : Z) (temp : list Z) (tempIdx : Z)
  : result (list Z * Z) :=
  match fuel with
  | O => OutOfFuel
  | S fuel' =>
      if 0 <? value
      then try temp' <- array_put temp tempIdx (48 + value mod 10);
           digits_loop fuel' (value / 10) temp' (tempIdx + 1)
      else Val (temp, tempIdx)
  end.

(** [while (tempIdx > 0) { buf[idx++] = temp[--tempIdx]; }] *)
Fixpoint reverse_loop (fuel : nat) (temp : list Z) (tempIdx : Z)
    (buf : list Z) (idx : Z) : result (list Z * Z) :=
  match fuel with
  | O => OutOfFuel
  | S fuel' =>
      if 0 <? tempIdx
      then try c <- array_get temp (tempIdx - 1);
           try buf' <- array_put buf idx c;
           reverse_loop fuel' temp (tempIdx - 1) buf' (idx + 1)
      else Val (buf, idx)
  end.

(** The [if (value == 0) ... else ...] block shared by the two files:
    the result is the buffer and the index after the last digit. *)
Definition to_decimal (fuel : nat) (value : Z) (buf temp : list Z)
  : result (list Z * Z) :=
  if value =? 0
  then try buf' <- array_put buf 0 48; Val (buf', 1)
  else try r <- digits_loop fuel value temp 0;
       reverse_loop fuel (fst r) (snd r) buf 0.

(** main.cpp: [ticks = System::getTicks() / 1000], the digits, then
    ['s'], ['\r'], ['\n'] and the terminator; [buf] and [temp] have 16
    elements there. *)
Definition heartbeat_text (fuel : nat) (tickCount : Z) (buf temp : list Z)
  : result (list Z) :=
  let ticks := tickCount / 1000 in
  try r <- to_decimal fuel ticks buf temp;
  let idx := snd r in
  try b1 <- array_put (fst r) idx 115;
  try b2 <- array_put b1 (idx + 1) 13;
  try b3 <- array_put b2 (idx + 2) 10;
  array_put b3 (idx + 3) 0.

(** blinky.cpp: the digits of [blinkRate], then ['m'], ['s'], ['\r'],
    ['\n'] and the terminator; [buf] and [temp] have 8 elements there. *)
Definition rate_text (fuel : nat) (blinkRate : Z) (buf temp : list Z)
  : result (list Z) :=
  try r <- to_decimal fuel blinkRate buf temp;
  let idx := snd r in
  try b1 <- array_put (fst r) idx 109;
  try b2 <- array_put b1 (idx + 1) 115;
  try b3 <- array_put b2 (idx + 2) 13;
  try b4 <- array_put b3 (idx + 3) 10;
  array_put b4 (idx + 4) 0.

(** blinky.cpp: the rate table and the step taken on a button press,
    [rateIndex = (rateIndex + 1) % numRates; blinkRate = rates[rateIndex]]. *)
Definition rates : list Z := [500; 250; 100; 1000].
Definition numRates : Z := Z.of_nat (length rates).

Definition next_rate (rateIndex : Z) : result (Z * Z) :=
  let rateIndex' := ((rateIndex + 1) mod numRates) mod 2 ^ 8 in
  try blinkRate <- array_get rates rateIndex';
  Val (rateIndex', blinkRate).

(** [rateIndex] after [n] presses, starting from 0. *)
Fixpoint presses (n : nat) : result (Z * Z) :=
  match n with
  | O => Val (0, 500)
  | S n' => try st <- presses n'; next_rate (fst st)
  end.

(** The text a NUL-terminated array holds. *)
Fixpoint c_str (a : list Z) : list Z :=
  match a with
  | [] => []
  | c :: rest => if c =? 0 then [] else c :: c_str rest
  end.

(** Reading a decimal numeral, most significant digit first. *)
Definition parse_decimal (digits : list Z) : Z :=
  fold_left (fun acc c => 10 * acc + (c - 48)) digits 0.

(** The [n] low decimal digits of [x] as characters, least significant
    first. *)
Fixpoint lsd_digits (n : nat) (x : Z) : list Z :=
  match n with
  | O => []
  | S n' => (48 + x mod 10) :: lsd_digits n' (x / 10)
  end.

End App.

(** A small image for the boot scenario: one data word whose load image
    is the bytes DE AD BE EF, eight bytes of bss holding stale values, one
    pre-init constructor and two init constructors.  Each constructor
    shifts a hexadecimal digit taken from its own address into the bss
    word at 0x20000008, so that word records which constructors ran and in
    which order; [main] copies it to 0x20000010 and returns. *)
Definition stub_image : Startup.image :=
  Startup.Image 0x20020000 0x08001000 0x20000000 0x20000004
                0x20000004 0x2000000C
                [0x08000201] [0x08000301; 0x08000401]
                (fun f =>
                   match f with
                   | fn_ptr p =>
                       do v <- load 0x20000008;
                       store 0x20000008 (16 * v + (p / 256) mod 16)
                   | fn_main =>
                       do v <- load 0x20000008;
                       store 0x20000010 v
                   end).

Definition stub_machine : machine :=
  Machine false 0
          {[ 0x08001000 := 0xDEADBEEF; 0x20000000 := 0x12345678;
             0x20000004 := 0x55; 0x20000008 := 0x77 ]}
          [] 0 (fun _ => 1%nat).

(** * Proofs *)

(** ** The interrupt handler and preemption points *)

Lemma iter_SysTick_fields (n : nat) (s : machine) :
  Nat.iter n SysTick_Handler s
  = set_tickCount (increments n (s_tickCount s)) s.
Proof.
  induction n as [|n IH]; simpl.
  - by destruct s.
  - rewrite IH. reflexivity.
Qed.

Lemma preempt_fields (s : machine) :
  preempt s
  = Machine (primask s) (increments (irq s (now s)) (s_tickCount s))
            (mem s) (trace s) (S (now s)) (irq s).
Proof. unfold preempt. rewrite iter_SysTick_fields. reflexivity. Qed.

Lemma increments_add (a b : nat) (t : Z) :
  increments (a + b) t = increments b (increments a t).
Proof.
  unfold increments. rewrite Nat.add_comm. apply Nat.iter_add.
Qed.

Lemma increments_wrap (n : nat) (t : Z) :
  is_u32 t -> increments n t = wrap32 (t + Z.of_nat n).
Proof.
  unfold is_u32, wrap32. intros Ht.
  induction n as [|n IH].
  - simpl. rewrite Z.add_0_r, Z.mod_small; lia.
  - unfold increments in *. simpl. rewrite IH. unfold wrap32.
    rewrite Zplus_mod_idemp_l. f_equal. lia.
Qed.

Lemma increments_is_u32 (n : nat) (t : Z) :
  is_u32 t -> is_u32 (increments n t).
Proof.
  intros Ht. rewrite increments_wrap by done.
  unfold is_u32, wrap32. apply Z.mod_pos_bound. lia.
Qed.

Lemma taken_add (sched : nat -> nat) (from a b : nat) :
  taken sched from (a + b)
  = (taken sched from a + taken sched (from + a) b)%nat.
Proof.
  revert from. induction a as [|a IH]; intros from; simpl.
  - by rewrite Nat.add_0_r.
  - rewrite IH. replace (S from + a)%nat with (from + S a)%nat by lia. lia.
Qed.

Lemma taken_const_1 (sched : nat -> nat) (from k : nat) :
  (forall n, sched n = 1%nat) -> taken sched from k = k.
Proof.
  intros H. revert from. induction k as [|k IH]; intros from; simpl.
  - done.
  - by rewrite H, IH.
Qed.

(** Run the straight-line part of a computation. *)
Ltac run_machine :=
  cbv [bind ret gets modify load store vload vstore asm_volatile discard];
  rewrite ?preempt_fields;
  cbn [primask s_tickCount mem trace now irq
       set_primask set_tickCount set_mem log advance state_of].

Ltac addr_ne :=
  cbv [System.AIRCR System.SCR System.SYST_CSR System.SYST_RVR
       System.SYST_CVR System.UID_BASE]; lia.

(** ** Critical sections *)

Lemma disableInterrupts_spec (s : machine) :
  exists s',
    disableInterrupts s = Done (Z.b2z (primask s)) s' /\
    primask s' = true /\ mem s' = mem s.
Proof.
  unfold disableInterrupts. run_machine. eauto.
Qed.

Lemma restoreInterrupts_spec (v : Z) (s : machine) :
  exists s',
    restoreInterrupts v s = Done tt s' /\
    primask s' = Z.testbit v 0 /\ mem s' = mem s.
Proof.
  unfold restoreInterrupts. run_machine. eauto.
Qed.

Lemma testbit_b2z (b : bool) : Z.testbit (Z.b2z b) 0 = b.
Proof. by destruct b. Qed.

(** C3. For every starting value of PRIMASK, entering and leaving two
    nested [CriticalSection] guards ends with PRIMASK equal to its value
    before the outer guard was entered; when the inner guard is destroyed
    the mask is the outer guard's masked state, not the enabled state. *)
Theorem nested_critical_sections_restore (s : machine) :
  exists s',
    nested_guards s = Done true s' /\
    primask s' = primask s.
Proof.
  unfold nested_guards, CriticalSection_ctor, CriticalSection_dtor.
  unfold bind at 1 2.
  destruct (disableInterrupts_spec s) as (s1 & -> & Hp1 & _).
  unfold ret at 1. unfold bind at 1 2.
  destruct (disableInterrupts_spec s1) as (s2 & -> & Hp2 & _).
  unfold ret at 1. unfold bind at 1. cbn [m_primask].
  destruct (restoreInterrupts_spec (Z.b2z (primask s1)) s2) as (s3 & -> & Hp3 & _).
  unfold bind at 1, gets at 1. unfold bind at 1.
  destruct (restoreInterrupts_spec (Z.b2z (primask s)) s3) as (s4 & -> & Hp4 & _).
  unfold ret. exists s4. split.
  - f_equal. by rewrite Hp3, testbit_b2z.
  - by rewrite Hp4, testbit_b2z.
Qed.

(** ** System::init and the clock *)

(** C5. [System::init] writes (168000000 / 1000) - 1 = 167999 to the
    SysTick reload register, 0 to the current-value register and the
    enable, interrupt-enable and processor-clock bits to the control
    register, in that order, and then returns [Ok]. *)
Theorem init_programs_systick (s : machine) :
  exists s',
    System.init s = Done Ok s' /\
    mem s' !! System.SYST_RVR = Some 167999 /\
    SYSTEM_CLOCK_HZ / 1000 - 1 = 167999 /\
    mem s' !! System.SYST_CVR = Some 0 /\
    mem s' !! System.SYST_CSR = Some 7 /\
    Z.testbit 7 0 = true /\ Z.testbit 7 1 = true /\ Z.testbit 7 2 = true /\
    trace s' = trace s ++ [ EvWrite System.SYST_RVR 167999;
                            EvWrite System.SYST_CVR 0;
                            EvWrite System.SYST_CSR 7;
                            EvWrite System.AIRCR 0x05FA0300 ].
Proof.
  eexists. split; [reflexivity|].
  cbn -[insert lookup]. repeat split; try reflexivity.
  - rewrite !lookup_insert_ne by addr_ne. by rewrite lookup_insert_eq.
  - rewrite !lookup_insert_ne by addr_ne. by rewrite lookup_insert_eq.
  - rewrite !lookup_insert_ne by addr_ne. by rewrite lookup_insert_eq.
  - by rewrite <- !app_assoc.
Qed.

Lemma getSystemClock_const (s : machine) :
  System.getSystemClock s = Done 168000000 s.
Proof. reflexivity. Qed.

(** C10. [System::getSystemClock] returns the constant 168000000 in every
    state and leaves the state alone; [initClocks] does nothing, and the
    value reported after [System::init], or after any sequence of [System]
    operations, is the same. *)
Theorem getSystemClock_always_168MHz :
  (forall s, System.getSystemClock s = Done 168000000 s) /\
  (forall s, System.initClocks s = Done tt s) /\
  (forall s, System.getSystemClock (state_of (System.init s))
             = Done 168000000 (state_of (System.init s))) /\
  (forall fuel ops s,
     System.getSystemClock (state_of (run_apis fuel ops s))
     = Done 168000000 (state_of (run_apis fuel ops s))).
Proof.
  repeat split; intros; apply getSystemClock_const.
Qed.

(** ** Deep sleep and the device identifier *)

Lemma clear_bit2_mask : wrap32 (Z.lnot (Z.shiftl 1 2)) = 0xFFFFFFFB.
Proof. reflexivity. Qed.

Lemma testbit_mask_FFFFFFFB (i : Z) :
  0 <= i < 32 -> Z.testbit 0xFFFFFFFB i = negb (i =? 2).
Proof.
  intros Hi.
  assert (Hcases : i = 0 \/ i = 1 \/ i = 2 \/ i = 3 \/ i = 4 \/ i = 5 \/ i = 6
          \/ i = 7 \/ i = 8 \/ i = 9 \/ i = 10 \/ i = 11 \/ i = 12 \/ i = 13
          \/ i = 14 \/ i = 15 \/ i = 16 \/ i = 17 \/ i = 18 \/ i = 19
          \/ i = 20 \/ i = 21 \/ i = 22 \/ i = 23 \/ i = 24 \/ i = 25
          \/ i = 26 \/ i = 27 \/ i = 28 \/ i = 29 \/ i = 30 \/ i = 31) by lia.
  repeat (destruct Hcases as [-> | Hcases]; [reflexivity|]).
  by subst.
Qed.

(** C8. [System::deepSleep] writes SCR (0xE000ED10) with bit 2 set, then
    issues [dsb] and [wfi], then writes SCR with bit 2 cleared: on return
    bit 2 of SCR is 0, every other bit of the register is as it was before
    the call, and no other word of memory has changed. *)
Theorem deepSleep_sets_then_clears_SLEEPDEEP (s : machine) (i : Z) :
  0 <= i < 32 -> i <> 2 ->
  let v := mem s !!! System.SCR in
  exists s',
    System.deepSleep s = Done tt s' /\
    System.SCR = 0xE000ED10 /\
    trace s' = trace s ++ [ EvRead System.SCR v;
                            EvWrite System.SCR (Z.lor v 4);
                            EvAsm dsb;
                            EvAsm wfi;
                            EvRead System.SCR (Z.lor v 4);
                            EvWrite System.SCR (Z.land (Z.lor v 4) 0xFFFFFFFB) ] /\
    Z.testbit (Z.lor v 4) 2 = true /\
    Z.testbit (mem s' !!! System.SCR) 2 = false /\
    Z.testbit (mem s' !!! System.SCR) i = Z.testbit v i /\
    (forall a, a <> System.SCR -> mem s' !!! a = mem s !!! a).
Proof.
  intros Hi Hne v.
  subst v. unfold System.deepSleep. run_machine.
  rewrite clear_bit2_mask, !lookup_total_insert_eq.
  change (Z.shiftl 1 2) with 4.
  eexists. split; [reflexivity|]. run_machine.
  rewrite !lookup_total_insert_eq.
  repeat split.
  - by rewrite <- !app_assoc.
  - rewrite Z.lor_spec. apply orb_true_r.
  - rewrite Z.land_spec. apply andb_false_r.
  - rewrite Z.land_spec, Z.lor_spec, testbit_mask_FFFFFFFB by done.
    replace (Z.testbit 4 i) with false.
    + rewrite orb_false_r. destruct (Z.eqb_spec i 2); [done|]. apply andb_true_r.
    + symmetry. change 4 with (2 ^ 2). apply Z.pow2_bits_false. lia.
  - intros a Ha. by rewrite !lookup_total_insert_ne.
Qed.

Lemma deepSleep_sets_then_clears_SLEEPDEEP_witness :
  let s := Machine false 0 {[ System.SCR := 0x10 ]} [] 0 (fun _ => 1%nat) in
  exists s',
    System.deepSleep s = Done tt s' /\
    mem s' !!! System.SCR = 0x10 /\
    Z.testbit (mem s' !!! System.SCR) 4 = Z.testbit 0x10 4.
Proof.
  intros s.
  destruct (deepSleep_sets_then_clears_SLEEPDEEP s 4) as (s' & Hrun & _ & _ & _ & _ & Hbit & _);
    [lia | lia |].
  exists s'. split; [exact Hrun|]. split; [|exact Hbit].
  revert Hrun. vm_compute. intros [= <-]. reflexivity.
Defined.

(** C9. Called with an array [id] that does not overlap the device-ID
    words, [System::getUniqueId] reads the three words at 0x1FFF7A10,
    0x1FFF7A14 and 0x1FFF7A18 in that order and stores them in [id[0]],
    [id[1]] and [id[2]]; no other word of memory, no register and no other
    part of the machine changes. *)
Theorem getUniqueId_copies_three_words (id : Z) (s : machine) :
  id + 12 <= System.UID_BASE \/ System.UID_BASE + 12 <= id ->
  exists s',
    System.getUniqueId id s = Done tt s' /\
    System.UID_BASE = 0x1FFF7A10 /\
    mem s' !!! id = mem s !!! 0x1FFF7A10 /\
    mem s' !!! (id + 4) = mem s !!! 0x1FFF7A14 /\
    mem s' !!! (id + 8) = mem s !!! 0x1FFF7A18 /\
    (forall a, a <> id -> a <> id + 4 -> a <> id + 8 ->
               mem s' !!! a = mem s !!! a) /\
    trace s' = trace s ++ [ EvRead 0x1FFF7A10 (mem s !!! 0x1FFF7A10);
                            EvRead 0x1FFF7A14 (mem s !!! 0x1FFF7A14);
                            EvRead 0x1FFF7A18 (mem s !!! 0x1FFF7A18) ] /\
    s_tickCount s' = s_tickCount s /\ primask s' = primask s /\
    now s' = now s.
Proof.
  intros Hsep.
  unfold System.getUniqueId. run_machine. unfold System.UID_BASE in *.
  replace (id + 4 * 0) with id by lia.
  replace (id + 4 * 1) with (id + 4) by lia.
  replace (id + 4 * 2) with (id + 8) by lia.
  change (0x1FFF7A10 + 4 * 0) with 0x1FFF7A10.
  change (0x1FFF7A10 + 4 * 1) with 0x1FFF7A14.
  change (0x1FFF7A10 + 4 * 2) with 0x1FFF7A18.
  eexists. split; [reflexivity|]. run_machine.
  repeat split.
  - rewrite !lookup_total_insert_ne by lia. by rewrite lookup_total_insert_eq.
  - rewrite !lookup_total_insert_ne by lia.
    rewrite lookup_total_insert_eq.
    by rewrite !lookup_total_insert_ne by lia.
  - rewrite lookup_total_insert_eq.
    by rewrite !lookup_total_insert_ne by lia.
  - intros a H0 H1 H2. by rewrite !lookup_total_insert_ne.
  - rewrite <- !app_assoc. cbn [app].
    by rewrite !lookup_total_insert_ne by lia.
Qed.

Lemma getUniqueId_copies_three_words_witness :
  let s := Machine false 0
             {[ 0x1FFF7A10 := 0x11111111; 0x1FFF7A14 := 0x22222222;
                0x1FFF7A18 := 0x33333333 ]} [] 0 (fun _ => 0%nat) in
  exists s',
    System.getUniqueId 0x20000100 s = Done tt s' /\
    mem s' !!! 0x20000100 = 0x11111111 /\
    mem s' !!! 0x20000104 = 0x22222222 /\
    mem s' !!! 0x20000108 = 0x33333333.
Proof.
  intros s.
  destruct (getUniqueId_copies_three_words 0x20000100 s)
    as (s' & Hrun & _ & H0 & H1 & H2 & _); [vm_compute; right; discriminate|].
  exists s'. split; [exact Hrun|].
  rewrite H0. change (0x20000100 + 4) with 0x20000104 in H1. rewrite H1.
  change (0x20000100 + 8) with 0x20000108 in H2. rewrite H2.
  by vm_compute.
Defined.

(** ** The tick counter *)

Lemma ticks_by_isr_only_refl (s : machine) : ticks_by_isr_only s s.
Proof. split; [done|]. exists 0%nat. split; [lia|reflexivity]. Qed.

Lemma ticks_by_isr_only_trans (s1 s2 s3 : machine) :
  ticks_by_isr_only s1 s2 -> ticks_by_isr_only s2 s3 ->
  ticks_by_isr_only s1 s3.
Proof.
  intros (Hi1 & k1 & Hn1 & Ht1) (Hi2 & k2 & Hn2 & Ht2).
  split; [congruence|]. exists (k1 + k2)%nat. split; [lia|].
  rewrite Ht2. unfold tick_at. rewrite Ht1, Hi1, Hn1.
  unfold tick_at. by rewrite <- increments_add, <- taken_add.
Qed.

Lemma ticks_by_isr_only_same (s s' : machine) :
  irq s' = irq s -> now s' = now s -> s_tickCount s' = s_tickCount s ->
  ticks_by_isr_only s s'.
Proof.
  intros Hi Hn Ht. split; [done|]. exists 0%nat. split; [lia|].
  by rewrite Ht.
Qed.

Lemma ticks_by_isr_only_preempt (s : machine) :
  ticks_by_isr_only s (preempt s).
Proof.
  rewrite preempt_fields. split; [done|]. exists 1%nat. cbn.
  split; [lia|]. unfold tick_at. cbn. by rewrite Nat.add_0_r.
Qed.

Lemma quiet_ret {A} (a : A) : quiet (ret a).
Proof. intros s. apply ticks_by_isr_only_refl. Qed.

Lemma quiet_bind {A B} (m : M A) (k : A -> M B) :
  quiet m -> (forall a, quiet (k a)) -> quiet (bind m k).
Proof.
  intros Hm Hk s. unfold bind. specialize (Hm s).
  destruct (m s) as [a s'|s']; cbn in *; [|done].
  eapply ticks_by_isr_only_trans; [exact Hm|apply Hk].
Qed.

Lemma quiet_gets {A} (f : machine -> A) : quiet (gets f).
Proof. intros s. apply ticks_by_isr_only_refl. Qed.

Lemma quiet_load (a : Z) : quiet (load a).
Proof. apply quiet_gets. Qed.

Lemma quiet_store (a v : Z) : quiet (store a v).
Proof. intros s. by apply ticks_by_isr_only_same. Qed.

Lemma quiet_vload (a : Z) : quiet (vload a).
Proof. intros s. by apply ticks_by_isr_only_same. Qed.

Lemma quiet_vstore (a v : Z) : quiet (vstore a v).
Proof. intros s. by apply ticks_by_isr_only_same. Qed.

Lemma quiet_set_primask (b : bool) : quiet (modify (set_primask b)).
Proof. intros s. by apply ticks_by_isr_only_same. Qed.

Lemma quiet_asm_volatile (i : asm) : quiet (asm_volatile i).
Proof.
  intros s.
  apply (ticks_by_isr_only_trans s (log (EvAsm i) s)).
  - by apply ticks_by_isr_only_same.
  - apply ticks_by_isr_only_preempt.
Qed.

Lemma quiet_read_tickCount : quiet System.read_tickCount.
Proof. intros s. by apply ticks_by_isr_only_same. Qed.

Create HintDb quiet.
#[local] Hint Resolve quiet_ret quiet_bind quiet_gets quiet_load quiet_store
  quiet_vload quiet_vstore quiet_set_primask quiet_asm_volatile
  quiet_read_tickCount : quiet.

Lemma quiet_while_true_nop (fuel : nat) : quiet (while_true_nop fuel).
Proof.
  induction fuel as [|fuel IH]; intros s; cbn [while_true_nop].
  - apply ticks_by_isr_only_refl.
  - apply (quiet_bind (asm_volatile nop) (fun _ => while_true_nop fuel));
      auto with quiet.
Qed.

Lemma quiet_delayMs_loop (fuel : nat) (start ms : Z) :
  quiet (System.delayMs_loop fuel start ms).
Proof.
  induction fuel as [|fuel IH]; intros s; cbn [System.delayMs_loop].
  - apply ticks_by_isr_only_refl.
  - apply (quiet_bind System.read_tickCount); [auto with quiet|].
    intros t. destruct (wrap32 (t - start) <? ms); auto with quiet.
Qed.

Lemma quiet_delayUs_loop (fuel : nat) (cycles : Z) :
  quiet (System.delayUs_loop fuel cycles).
Proof.
  revert cycles.
  induction fuel as [|fuel IH]; intros cycles s; cbn [System.delayUs_loop].
  - apply ticks_by_isr_only_refl.
  - destruct (negb (cycles =? 0)).
    + apply (quiet_bind (asm_volatile nop)
               (fun _ => System.delayUs_loop fuel (wrap32 (cycles - 1))));
        auto with quiet.
    + apply ticks_by_isr_only_refl.
Qed.

#[local] Hint Resolve quiet_while_true_nop quiet_delayMs_loop
  quiet_delayUs_loop : quiet.

Lemma quiet_run_api (fuel : nat) (op : api) : quiet (run_api fuel op).
Proof.
  destruct op; cbn [run_api];
    unfold discard, System.init, System.initClocks, System.initSysTick,
      System.initNvic, System.reset, System.getTicks, System.delayMs,
      System.delayUs, System.getSystemClock, System.sleep, System.deepSleep,
      System.getUniqueId, System.enablePeripheralClock,
      System.disablePeripheralClock;
    auto 12 with quiet.
Qed.

Lemma quiet_run_apis (fuel : nat) (ops : list api) : quiet (run_apis fuel ops).
Proof.
  induction ops as [|op ops IH]; cbn [run_apis].
  - apply quiet_ret.
  - apply quiet_bind; [apply quiet_run_api|done].
Qed.

Lemma quiet_CriticalSection_ctor : quiet CriticalSection_ctor.
Proof.
  unfold CriticalSection_ctor, disableInterrupts. auto 12 with quiet.
Qed.

Lemma quiet_CriticalSection_dtor (cs : CriticalSection) :
  quiet (CriticalSection_dtor cs).
Proof.
  unfold CriticalSection_dtor, restoreInterrupts. auto 12 with quiet.
Qed.

(** C4. The SysTick handler adds exactly 1 (modulo 2^32) to the tick
    counter and changes nothing else; [System::getTicks] returns the
    counter with one read; across any sequence of [System] operations, and
    across entering or leaving a critical section, the counter moves only
    by one increment per interrupt taken, so of two successive reads the
    later is smaller than the earlier only if the counter wrapped around
    2^32 in between. *)
Theorem tick_counter_written_only_by_SysTick :
  (forall s,
     s_tickCount (SysTick_Handler s) = (s_tickCount s + 1) mod 2 ^ 32 /\
     primask (SysTick_Handler s) = primask s /\
     mem (SysTick_Handler s) = mem s /\
     trace (SysTick_Handler s) = trace s /\
     now (SysTick_Handler s) = now s /\
     irq (SysTick_Handler s) = irq s) /\
  (forall s,
     System.getTicks s
     = Done (s_tickCount s) (log (EvTick (s_tickCount s)) s)) /\
  (forall fuel ops s,
     ticks_by_isr_only s (state_of (run_apis fuel ops s))) /\
  (forall cs s,
     ticks_by_isr_only s (state_of (CriticalSection_ctor s)) /\
     ticks_by_isr_only s (state_of (CriticalSection_dtor cs s))) /\
  (forall fuel ops s r1 s1 s2 r2 s3,
     is_u32 (s_tickCount s) ->
     System.getTicks s = Done r1 s1 ->
     run_apis fuel ops s1 = Done tt s2 ->
     System.getTicks s2 = Done r2 s3 ->
     let n := Z.of_nat (taken (irq s) (now s) (now s2 - now s)) in
     r2 = wrap32 (r1 + n) /\
     (r1 + n < 2 ^ 32 -> r1 <= r2) /\
     (r2 < r1 -> 2 ^ 32 <= r1 + n)).
Proof.
  split; [|split; [|split; [|split]]].
  - intros s. by repeat split.
  - reflexivity.
  - intros. apply quiet_run_apis.
  - intros cs s. split.
    + apply quiet_CriticalSection_ctor.
    + apply quiet_CriticalSection_dtor.
  - intros fuel ops s r1 s1 s2 r2 s3 Hu [= <- <-] Hrun [= <- <-] n.
    pose proof (quiet_run_apis fuel ops (log (EvTick (s_tickCount s)) s)) as Hq.
    rewrite Hrun in Hq. destruct Hq as (_ & k & Hnow & Htick).
    cbn in Hnow, Htick. unfold tick_at in Htick. cbn in Htick.
    assert (Hk : (now s2 - now s)%nat = k) by lia.
    subst n. rewrite Hk, Htick, increments_wrap by done.
    unfold is_u32 in Hu. unfold wrap32.
    split; [done|]. split.
    + intros Hlt. rewrite Z.mod_small; lia.
    + intros Hback.
      destruct (Z_lt_le_dec (s_tickCount s + Z.of_nat (taken (irq s) (now s) k)) (2 ^ 32));
        [|done].
      rewrite Z.mod_small in Hback; lia.
Qed.

(** ** delayMs *)

Lemma poll_fields (s : machine) :
  poll s
  = Machine (primask s) (increments (irq s (now s)) (s_tickCount s)) (mem s)
            (trace s ++ [EvTick (s_tickCount s); EvAsm nop])
            (S (now s)) (irq s).
Proof.
  unfold poll, nop_step. rewrite preempt_fields. cbn.
  by rewrite <- app_assoc.
Qed.

Lemma tick_at_S (s : machine) (k : nat) :
  tick_at s (S k) = increments (irq s (now s + k)) (tick_at s k).
Proof.
  unfold tick_at. replace (S k) with (k + 1)%nat by lia.
  rewrite taken_add, increments_add. cbn [taken]. by rewrite Nat.add_0_r.
Qed.

Lemma tick_at_poll (s : machine) (j : nat) :
  tick_at (poll s) j = tick_at s (S j).
Proof.
  rewrite poll_fields. unfold tick_at. cbn [irq now s_tickCount taken].
  by rewrite increments_add.
Qed.

Lemma iter_poll_fields (k : nat) (s : machine) :
  Nat.iter k poll s
  = Machine (primask s) (tick_at s k) (mem s)
            (trace s ++ polls_trace s k) (now s + k) (irq s).
Proof.
  induction k as [|k IH].
  - cbn. unfold polls_trace. cbn.
    rewrite app_nil_r, Nat.add_0_r. by destruct s.
  - cbn [Nat.iter nat_rect]. unfold Nat.iter in IH. rewrite IH, poll_fields.
    cbn [primask s_tickCount mem trace now irq].
    f_equal.
    + by rewrite tick_at_S.
    + unfold polls_trace. rewrite seq_S, flat_map_app. cbn.
      by rewrite <- app_assoc.
    + lia.
Qed.

Lemma delayMs_loop_exit (k fuel : nat) (start ms : Z) (s : machine) :
  (k < fuel)%nat ->
  (forall j, (j < k)%nat -> wrap32 (tick_at s j - start) < ms) ->
  ms <= wrap32 (tick_at s k - start) ->
  System.delayMs_loop fuel start ms s
  = Done tt (log (EvTick (tick_at s k)) (Nat.iter k poll s)).
Proof.
  revert fuel s. induction k as [|k IH]; intros fuel s Hfuel Hbelow Hreach.
  - destruct fuel as [|fuel]; [lia|].
    cbn [System.delayMs_loop]. unfold System.read_tickCount. run_machine.
    change (tick_at s 0) with (s_tickCount s) in Hreach.
    destruct (Z.ltb_spec (wrap32 (s_tickCount s - start)) ms); [lia|].
    reflexivity.
  - destruct fuel as [|fuel]; [lia|].
    cbn [System.delayMs_loop]. unfold System.read_tickCount.
    cbv [bind].
    pose proof (Hbelow 0%nat ltac:(lia)) as H0.
    change (tick_at s 0) with (s_tickCount s) in H0.
    destruct (Z.ltb_spec (wrap32 (s_tickCount s - start)) ms); [|lia].
    cbv [asm_volatile modify].
    change (preempt (log (EvAsm nop) (log (EvTick (s_tickCount s)) s)))
      with (poll s).
    rewrite (IH fuel (poll s)).
    + by rewrite tick_at_poll, Nat.iter_succ_r.
    + lia.
    + intros j Hj. rewrite tick_at_poll. apply Hbelow. lia.
    + by rewrite tick_at_poll.
Qed.

Lemma delayMs_loop_spin (fuel : nat) (start ms : Z) (s : machine) :
  (forall j, (j < fuel)%nat -> wrap32 (tick_at s j - start) < ms) ->
  System.delayMs_loop fuel start ms s = Spinning (Nat.iter fuel poll s).
Proof.
  revert s. induction fuel as [|fuel IH]; intros s Hbelow.
  - reflexivity.
  - cbn [System.delayMs_loop]. unfold System.read_tickCount. cbv [bind].
    pose proof (Hbelow 0%nat ltac:(lia)) as H0.
    change (tick_at s 0) with (s_tickCount s) in H0.
    destruct (Z.ltb_spec (wrap32 (s_tickCount s - start)) ms); [|lia].
    cbv [asm_volatile modify].
    change (preempt (log (EvAsm nop) (log (EvTick (s_tickCount s)) s)))
      with (poll s).
    rewrite (IH (poll s)).
    + by rewrite Nat.iter_succ_r.
    + intros j Hj. rewrite tick_at_poll. apply Hbelow. lia.
Qed.

Lemma elapsed_taken (s : machine) (j : nat) :
  is_u32 (s_tickCount s) ->
  elapsed s j = wrap32 (Z.of_nat (taken (irq s) (now s) j)).
Proof.
  intros Hu. unfold elapsed, tick_at. rewrite increments_wrap by done.
  unfold wrap32. rewrite Zminus_mod_idemp_l. f_equal. lia.
Qed.

Lemma delayMs_exit_fields (s : machine) (k : nat) :
  delayMs_exit s k
  = Machine (primask s) (tick_at s k) (mem s)
            (trace s ++ [EvTick (s_tickCount s)] ++ polls_trace s k
                     ++ [EvTick (tick_at s k)])
            (now s + k) (irq s).
Proof.
  unfold delayMs_exit. rewrite iter_poll_fields.
  change (polls_trace (log (EvTick (s_tickCount s)) s) k)
    with (polls_trace s k).
  change (tick_at (log (EvTick (s_tickCount s)) s) k) with (tick_at s k).
  unfold log. cbn [primask s_tickCount mem trace now irq].
  by rewrite <- !app_assoc.
Qed.

(** C2. [System::delayMs(ms)] returns at the first reading of the counter
    for which the unsigned 32-bit difference (current tick - start tick)
    is at least [ms], and keeps waiting as long as every reading is below
    [ms]; this holds for every start value, across the wrap of the counter.
    With one tick per turn of the loop it returns after exactly [ms] turns,
    and a 32 ms delay started at tick 0xFFFFFFF0 returns after 32
    increments, with the counter at 0x10. *)
Theorem delayMs_returns_when_elapsed_reaches_ms :
  (forall fuel ms s k,
     (k < fuel)%nat ->
     (forall j, (j < k)%nat -> elapsed s j < ms) ->
     ms <= elapsed s k ->
     System.delayMs fuel ms s = Done tt (delayMs_exit s k) /\
     s_tickCount (delayMs_exit s k) = tick_at s k /\
     now (delayMs_exit s k) = (now s + k)%nat /\
     trace (delayMs_exit s k)
     = trace s ++ [EvTick (s_tickCount s)] ++ polls_trace s k
               ++ [EvTick (tick_at s k)]) /\
  (forall fuel ms s,
     (forall j, (j < fuel)%nat -> elapsed s j < ms) ->
     exists s', System.delayMs fuel ms s = Spinning s') /\
  (forall ms s,
     is_u32 (s_tickCount s) -> is_u32 ms ->
     (forall n, irq s n = 1%nat) ->
     System.delayMs (S (Z.to_nat ms)) ms s
     = Done tt (delayMs_exit s (Z.to_nat ms)) /\
     s_tickCount (delayMs_exit s (Z.to_nat ms)) = wrap32 (s_tickCount s + ms)) /\
  (forall s,
     s_tickCount s = 0xFFFFFFF0 ->
     (forall n, irq s n = 1%nat) ->
     System.delayMs 33 32 s = Done tt (delayMs_exit s 32) /\
     s_tickCount (delayMs_exit s 32) = 0x10 /\
     taken (irq s) (now s) 32 = 32%nat).
Proof.
  assert (Hexit : forall fuel ms s k,
     (k < fuel)%nat ->
     (forall j, (j < k)%nat -> elapsed s j < ms) ->
     ms <= elapsed s k ->
     System.delayMs fuel ms s = Done tt (delayMs_exit s k)).
  { intros fuel ms s k Hfuel Hbelow Hreach.
    unfold System.delayMs, System.read_tickCount. cbv [bind].
    apply (delayMs_loop_exit k fuel (s_tickCount s) ms
             (log (EvTick (s_tickCount s)) s)); done. }
  assert (Hone : forall ms s,
     is_u32 (s_tickCount s) -> is_u32 ms ->
     (forall n, irq s n = 1%nat) ->
     System.delayMs (S (Z.to_nat ms)) ms s
     = Done tt (delayMs_exit s (Z.to_nat ms)) /\
     s_tickCount (delayMs_exit s (Z.to_nat ms)) = wrap32 (s_tickCount s + ms)).
  { intros ms s Hu Hms Hirq. unfold is_u32 in Hms.
    assert (Hel : forall j, (j <= Z.to_nat ms)%nat -> elapsed s j = Z.of_nat j).
    { intros j Hj. rewrite elapsed_taken, taken_const_1 by done.
      unfold wrap32. apply Z.mod_small. lia. }
    split.
    - apply Hexit; [lia| |].
      + intros j Hj. rewrite Hel; lia.
      + rewrite Hel; lia.
    - rewrite delayMs_exit_fields. cbn [s_tickCount]. unfold tick_at.
      rewrite taken_const_1, increments_wrap by done.
      f_equal. lia. }
  split; [|split; [|split]].
  - intros fuel ms s k Hfuel Hbelow Hreach.
    split; [by apply Hexit|]. by rewrite delayMs_exit_fields.
  - intros fuel ms s Hbelow. eexists.
    unfold System.delayMs, System.read_tickCount. cbv [bind].
    apply delayMs_loop_spin. exact Hbelow.
  - exact Hone.
  - intros s Ht Hirq.
    destruct (Hone 32 s) as [Hrun Htick]; [|done|done|].
    { rewrite Ht. unfold is_u32. lia. }
    change (Z.to_nat 32) with 32%nat in Hrun, Htick.
    split; [exact Hrun|]. split.
    + by rewrite Htick, Ht.
    + by apply taken_const_1.
Qed.

(** ** delayUs *)

Lemma iter_nop_step_fields (n : nat) (s : machine) :
  Nat.iter n nop_step s
  = Machine (primask s) (tick_at s n) (mem s)
            (trace s ++ repeat (EvAsm nop) n) (now s + n) (irq s).
Proof.
  induction n as [|n IH].
  - cbn. rewrite app_nil_r, Nat.add_0_r. by destruct s.
  - cbn [Nat.iter nat_rect]. unfold Nat.iter in IH. rewrite IH.
    unfold nop_step. rewrite preempt_fields. unfold log.
    cbn [primask s_tickCount mem trace now irq].
    f_equal.
    + by rewrite tick_at_S.
    + rewrite <- app_assoc. f_equal.
      change [EvAsm nop] with (repeat (EvAsm nop) 1).
      rewrite <- repeat_app. f_equal. lia.
    + lia.
Qed.

Lemma delayUs_loop_runs (fuel : nat) (cycles : Z) (s : machine) :
  is_u32 cycles ->
  (Z.to_nat cycles < fuel)%nat ->
  System.delayUs_loop fuel cycles s
  = Done tt (Nat.iter (Z.to_nat cycles) nop_step s).
Proof.
  unfold is_u32.
  revert cycles s. induction fuel as [|fuel IH]; intros cycles s Hc Hfuel.
  - lia.
  - cbn [System.delayUs_loop].
    destruct (Z.eqb_spec cycles 0) as [->|Hnz]; cbn [negb].
    + reflexivity.
    + cbv [bind asm_volatile modify]. fold (nop_step s).
      assert (Hw : wrap32 (cycles - 1) = cycles - 1).
      { unfold wrap32. apply Z.mod_small. lia. }
      rewrite Hw, IH by lia.
      replace (Z.to_nat cycles) with (S (Z.to_nat (cycles - 1))) by lia.
      by rewrite Nat.iter_succ_r.
Qed.

Lemma delayUs_cycles_bound (us : Z) : 0 <= System.delayUs_cycles us < 2 ^ 30.
Proof.
  unfold System.delayUs_cycles, wrap32.
  pose proof (Z.mod_pos_bound ((SYSTEM_CLOCK_HZ `div` 1000000) `mod` 2 ^ 32 * us)
                (2 ^ 32) ltac:(lia)) as Hb.
  split.
  - apply Z.div_pos; lia.
  - apply Z.div_lt_upper_bound; lia.
Qed.

(** [delayUs] executes exactly [delayUs_cycles us] no-ops. *)
Lemma delayUs_runs (fuel : nat) (us : Z) (s : machine) :
  (Z.to_nat (System.delayUs_cycles us) < fuel)%nat ->
  System.delayUs fuel us s
  = Done tt (Nat.iter (Z.to_nat (System.delayUs_cycles us)) nop_step s).
Proof.
  intros Hfuel. unfold System.delayUs. apply delayUs_loop_runs; [|done].
  pose proof (delayUs_cycles_bound us). unfold is_u32. lia.
Qed.

(** Below the point where [168 * us] leaves 32 bits the wait does grow
    with [us]. *)
Lemma delayUs_cycles_monotone_below_wrap (us1 us2 : Z) :
  0 <= us1 <= us2 -> us2 <= 25565281 ->
  System.delayUs_cycles us1 <= System.delayUs_cycles us2.
Proof.
  intros H1 H2. unfold System.delayUs_cycles, wrap32.
  change (SYSTEM_CLOCK_HZ `div` 1000000) with 168.
  change (168 `mod` 2 ^ 32) with 168.
  rewrite !Z.mod_small by lia.
  apply Z.div_le_mono; lia.
Qed.

(** C6. The product [168 * us] is formed in 32 bits.  [delayUs(102261126)]
    executes 1073741820 no-ops while [delayUs(102261127)], a longer delay,
    executes 38: the wait is not monotone in [us] on the whole [u32]
    range. *)
Theorem delayUs_wait_shrinks_after_wrap (s : machine) :
  is_u32 102261126 /\ is_u32 102261127 /\ 102261126 <= 102261127 /\
  System.delayUs (Z.to_nat (2 ^ 32)) 102261126 s
  = Done tt (Nat.iter (Z.to_nat 1073741820) nop_step s) /\
  System.delayUs (Z.to_nat (2 ^ 32)) 102261127 s
  = Done tt (Nat.iter (Z.to_nat 38) nop_step s) /\
  System.delayUs_cycles 102261126 = 1073741820 /\
  System.delayUs_cycles 102261127 = 38 /\
  ~ (forall us1 us2,
       is_u32 us1 -> is_u32 us2 -> us1 <= us2 ->
       System.delayUs_cycles us1 <= System.delayUs_cycles us2).
Proof.
  assert (H1 : System.delayUs_cycles 102261126 = 1073741820) by reflexivity.
  assert (H2 : System.delayUs_cycles 102261127 = 38) by reflexivity.
  unfold is_u32.
  split; [lia|]. split; [lia|]. split; [lia|].
  split; [|split; [|split; [exact H1|split; [exact H2|]]]].
  - rewrite <- H1. apply delayUs_runs. rewrite H1. lia.
  - rewrite <- H2. apply delayUs_runs. rewrite H2. lia.
  - intros Hmono.
    specialize (Hmono 102261126 102261127).
    rewrite H1, H2 in Hmono. unfold is_u32 in Hmono. lia.
Qed.

(** ** Reset handler *)

Section Boot.

Import Startup.

Variable img : image.

Lemma copy_data_spec (fuel : nat) (src dst : Z) (s : machine) :
  (0 < fuel)%nat ->
  _edata img - dst + 4 <= 4 * Z.of_nat fuel ->
  src + (_edata img - dst) <= dst \/ _edata img <= src ->
  exists m',
    copy_data img fuel src dst s = Done tt (set_mem m' s) /\
    (forall i, 0 <= i -> dst + 4 * i < _edata img ->
               m' !!! (dst + 4 * i) = mem s !!! (src + 4 * i)) /\
    (forall a, a < dst \/ _edata img <= a -> m' !!! a = mem s !!! a).
Proof.
  revert src dst s.
  induction fuel as [|fuel IH]; intros src dst s Hpos Hfuel Hsep; [lia|].
  cbn [copy_data].
  destruct (Z.ltb_spec dst (_edata img)) as [Hlt|Hge].
  - run_machine.
    destruct (IH (src + 4) (dst + 4) (set_mem (<[dst:=mem s !!! src]> (mem s)) s))
      as (m' & Hrun & Hcopy & Hframe); [lia|lia|lia|].
    exists m'. split; [exact Hrun|]. cbn [mem set_mem] in Hcopy, Hframe.
    split.
    + intros i Hi Hin.
      destruct (Z.eq_dec i 0) as [->|Hnz].
      * rewrite !Z.mul_0_r, !Z.add_0_r, Hframe by lia.
        apply lookup_total_insert_eq.
      * replace (dst + 4 * i) with (dst + 4 + 4 * (i - 1)) by lia.
        rewrite Hcopy by lia.
        replace (src + 4 + 4 * (i - 1)) with (src + 4 * i) by lia.
        apply lookup_total_insert_ne. lia.
    + intros a Ha. rewrite Hframe by lia.
      apply lookup_total_insert_ne. lia.
  - exists (mem s). split; [by destruct s|]. split; [intros; lia|done].
Qed.

Lemma zero_bss_spec (fuel : nat) (dst : Z) (s : machine) :
  (0 < fuel)%nat ->
  _ebss img - dst + 4 <= 4 * Z.of_nat fuel ->
  exists m',
    zero_bss img fuel dst s = Done tt (set_mem m' s) /\
    (forall i, 0 <= i -> dst + 4 * i < _ebss img -> m' !!! (dst + 4 * i) = 0) /\
    (forall a, a < dst \/ _ebss img <= a -> m' !!! a = mem s !!! a).
Proof.
  revert dst s.
  induction fuel as [|fuel IH]; intros dst s Hpos Hfuel; [lia|].
  cbn [zero_bss].
  destruct (Z.ltb_spec dst (_ebss img)) as [Hlt|Hge].
  - run_machine.
    destruct (IH (dst + 4) (set_mem (<[dst:=0]> (mem s)) s))
      as (m' & Hrun & Hzero & Hframe); [lia|lia|].
    exists m'. split; [exact Hrun|]. cbn [mem set_mem] in Hframe.
    split.
    + intros i Hi Hin.
      destruct (Z.eq_dec i 0) as [->|Hnz].
      * rewrite !Z.mul_0_r, !Z.add_0_r, Hframe by lia.
        apply lookup_total_insert_eq.
      * replace (dst + 4 * i) with (dst + 4 + 4 * (i - 1)) by lia.
        apply Hzero; lia.
    + intros a Ha. rewrite Hframe by lia.
      apply lookup_total_insert_ne. lia.
  - exists (mem s). split; [by destruct s|]. split; [intros; lia|done].
Qed.

Lemma copy_data_more_fuel (fuel n : nat) (src dst : Z) (s s' : machine) :
  copy_data img fuel src dst s = Done tt s' ->
  copy_data img (fuel + n) src dst s = Done tt s'.
Proof.
  revert src dst s. induction fuel as [|fuel IH]; intros src dst s; [done|].
  cbn [copy_data Nat.add]. destruct (dst <? _edata img); [|done].
  run_machine. apply IH.
Qed.

Lemma zero_bss_more_fuel (fuel n : nat) (dst : Z) (s s' : machine) :
  zero_bss img fuel dst s = Done tt s' ->
  zero_bss img (fuel + n) dst s = Done tt s'.
Proof.
  revert dst s. induction fuel as [|fuel IH]; intros dst s; [done|].
  cbn [zero_bss Nat.add]. destruct (dst <? _ebss img); [|done].
  run_machine. apply IH.
Qed.

Lemma while_true_nop_spins (fuel : nat) (s : machine) :
  while_true_nop fuel s = Spinning (Nat.iter fuel nop_step s).
Proof.
  revert s. induction fuel as [|fuel IH]; intros s; [done|].
  cbn [while_true_nop]. cbv [bind asm_volatile modify]. fold (nop_step s).
  by rewrite IH, Nat.iter_succ_r.
Qed.

Lemma calls_of_app (t1 t2 : list event) :
  calls_of (t1 ++ t2) = calls_of t1 ++ calls_of t2.
Proof. apply flat_map_app. Qed.

Hypothesis ctors_return :
  forall p s, exists s', code img (fn_ptr p) s = Done tt s'.
Hypothesis callees_make_no_calls :
  forall f s, calls_of (trace (state_of (code img f s))) = calls_of (trace s).

Lemma call_array_spec (array : list Z) (s : machine) :
  exists s',
    call_array img array s = Done tt s' /\
    calls_of (trace s') = calls_of (trace s) ++ map fn_ptr array.
Proof.
  revert s. induction array as [|p rest IH]; intros s.
  - exists s. split; [done|]. by rewrite app_nil_r.
  - cbn [call_array]. unfold call at 1. run_machine.
    destruct (ctors_return p (log (EvCall (fn_ptr p)) s)) as [s1 Hp].
    pose proof (callees_make_no_calls (fn_ptr p) (log (EvCall (fn_ptr p)) s)) as Hc.
    rewrite Hp in *. cbn [state_of] in Hc.
    destruct (IH s1) as (s' & Hrest & Hcalls).
    exists s'. split; [exact Hrest|].
    rewrite Hcalls, Hc. unfold log. cbn [trace].
    rewrite calls_of_app. cbn. by rewrite <- app_assoc.
Qed.

(** A constructor array that has been gone through has run the code of
    each entry, in array order, each on the machine its predecessor
    left. *)
Lemma call_array_runs (array : list Z) (s s' : machine) :
  call_array img array s = Done tt s' -> s' = foldl (ran img) s array.
Proof.
  revert s. induction array as [|p rest IH]; intros s.
  - by intros [= <-].
  - cbn [call_array foldl]. unfold call at 1, ran. run_machine.
    destruct (code img (fn_ptr p) (log (EvCall (fn_ptr p)) s)) as [[] s1|s1];
      [|done].
    cbn [state_of]. apply IH.
Qed.

(** The reset handler has no return path. *)
Lemma Reset_Handler_never_returns (fuel : nat) (s : machine) :
  exists s', Reset_Handler img fuel s = Spinning s'.
Proof.
  destruct (Reset_Handler img fuel s) as [[]|s']. by exists s'.
Qed.

(** C1. Vector 0 is the stack-top symbol and vector 1 is the reset handler.
    The reset handler copies the data image word by word from [_sidata]
    into [_sdata, _edata), then fills [_sbss, _ebss) with zeros, then calls
    the pre-init constructors in order, then the init constructors in
    order, running the code of each on the machine left by the one
    before, then [main], once; if [main] returns it executes no-ops for
    ever and never returns itself. *)
Theorem Reset_Handler_boot_sequence (fuel : nat) (s : machine) :
  (0 < fuel)%nat ->
  _edata img - _sdata img + 4 <= 4 * Z.of_nat fuel ->
  _ebss img - _sbss img + 4 <= 4 * Z.of_nat fuel ->
  _sidata img + (_edata img - _sdata img) <= _sdata img
    \/ _edata img <= _sidata img ->
  _edata img <= _sbss img \/ _ebss img <= _sdata img ->
  g_pfnVectors !! 0%nat = Some (InitialSP "_estack") /\
  g_pfnVectors !! 1%nat = Some (Handler "Reset_Handler") /\
  exists s1 s2 s3 s4,
    copy_data img fuel (_sidata img) (_sdata img) s = Done tt s1 /\
    (forall i, 0 <= i -> _sdata img + 4 * i < _edata img ->
       mem s1 !!! (_sdata img + 4 * i) = mem s !!! (_sidata img + 4 * i)) /\
    zero_bss img fuel (_sbss img) s1 = Done tt s2 /\
    (forall i, 0 <= i -> _sbss img + 4 * i < _ebss img ->
       mem s2 !!! (_sbss img + 4 * i) = 0) /\
    (forall i, 0 <= i -> _sdata img + 4 * i < _edata img ->
       mem s2 !!! (_sdata img + 4 * i) = mem s !!! (_sidata img + 4 * i)) /\
    trace s2 = trace s /\
    call_array img (__preinit_array img) s2 = Done tt s3 /\
    call_array img (__init_array img) s3 = Done tt s4 /\
    s3 = foldl (ran img) s2 (__preinit_array img) /\
    s4 = foldl (ran img) s3 (__init_array img) /\
    calls_of (trace (log (EvCall fn_main) s4))
    = calls_of (trace s) ++ map fn_ptr (__preinit_array img)
        ++ map fn_ptr (__init_array img) ++ [fn_main] /\
    (forall s5,
       code img fn_main (log (EvCall fn_main) s4) = Done tt s5 ->
       calls_of (trace s5)
       = calls_of (trace s) ++ map fn_ptr (__preinit_array img)
           ++ map fn_ptr (__init_array img) ++ [fn_main] /\
       forall n,
         Reset_Handler img (fuel + n) s
         = Spinning (Nat.iter (fuel + n) nop_step s5) /\
         trace (Nat.iter (fuel + n) nop_step s5)
         = trace s5 ++ repeat (EvAsm nop) (fuel + n) /\
         mem (Nat.iter (fuel + n) nop_step s5) = mem s5) /\
    (forall s5,
       code img fn_main (log (EvCall fn_main) s4) = Spinning s5 ->
       forall n, Reset_Handler img (fuel + n) s = Spinning s5).
Proof.
  intros Hpos Hdata Hbss Hflash Hsep.
  split; [reflexivity|]. split; [reflexivity|].
  destruct (copy_data_spec fuel (_sidata img) (_sdata img) s)
    as (m1 & Hcopy & Hwords & _); [done..|].
  destruct (zero_bss_spec fuel (_sbss img) (set_mem m1 s))
    as (m2 & Hzero & Hzeros & Hframe); [done..|].
  cbn [mem set_mem] in Hframe.
  set (s2 := set_mem m2 (set_mem m1 s)) in *.
  destruct (call_array_spec (__preinit_array img) s2) as (s3 & Hpre & Hcalls3).
  destruct (call_array_spec (__init_array img) s3) as (s4 & Hinit & Hcalls4).
  assert (Hcalls : calls_of (trace (log (EvCall fn_main) s4))
                   = calls_of (trace s) ++ map fn_ptr (__preinit_array img)
                       ++ map fn_ptr (__init_array img) ++ [fn_main]).
  { unfold log. cbn [trace]. rewrite calls_of_app, Hcalls4, Hcalls3.
    cbn. by rewrite <- !app_assoc. }
  assert (Hprefix : forall n,
    Reset_Handler img (fuel + n) s
    = (do _ <- call img fn_main; while_true_nop (fuel + n)) s4).
  { intros n. unfold Reset_Handler. unfold bind at 1.
    rewrite (copy_data_more_fuel _ n _ _ _ _ Hcopy). unfold bind at 1.
    rewrite (zero_bss_more_fuel _ n _ _ _ Hzero). fold s2. unfold bind at 1.
    rewrite Hpre. unfold bind at 1. by rewrite Hinit. }
  exists (set_mem m1 s), s2, s3, s4.
  split; [exact Hcopy|]. split; [exact Hwords|]. split; [exact Hzero|].
  split; [exact Hzeros|]. split.
  { intros i Hi Hin. cbn [s2 mem set_mem]. rewrite Hframe by lia.
    by apply Hwords. }
  split; [reflexivity|]. split; [exact Hpre|]. split; [exact Hinit|].
  split; [exact (call_array_runs _ _ _ Hpre)|].
  split; [exact (call_array_runs _ _ _ Hinit)|].
  split; [exact Hcalls|]. split.
  - intros s5 Hmain. split.
    + pose proof (callees_make_no_calls fn_main (log (EvCall fn_main) s4)) as Hc.
      rewrite Hmain in Hc. cbn [state_of] in Hc. by rewrite Hc.
    + intros n. rewrite Hprefix. unfold call. run_machine. rewrite Hmain.
      rewrite while_true_nop_spins, iter_nop_step_fields.
      by cbn [trace mem].
  - intros s5 Hmain n. rewrite Hprefix. unfold call. run_machine.
    by rewrite Hmain.
Qed.

End Boot.

(** ** UART transmit ring buffer *)

Section Ring.

Import UART.



Lemma tx_count_range (u : state) : 0 <= tx_count u < 256.
Proof. unfold tx_count, UART_BUFFER_SIZE. apply Z.mod_pos_bound. lia. Qed.









(** The refusal rule looks at the whole request: one call with 256 bytes
    is refused on an idle object, whose ring has room for 255. *)
Lemma enqueue_256_at_once (data : list Z) (u : state) :
  length data = 256%nat -> enqueue data 0 0 u = (NoMemory, u).
Proof.
  intros Hlen. unfold enqueue, tx_free, UART_BUFFER_SIZE. rewrite Hlen.
  pose proof (tx_count_range u).
  destruct (Z.ltb_spec (256 - 1 - tx_count u) (Z.of_nat 256)); [done|lia].
Qed.


End Ring.

(** ** Instances *)

Lemma Reset_Handler_boot_sequence_witness :
  exists s2 s4 s5,
    mem s2 !!! 0x20000000 = 0xDEADBEEF /\
    mem s2 !!! 0x20000004 = 0 /\
    mem s2 !!! 0x20000008 = 0 /\
    s4 = foldl (ran stub_image) s2 [0x08000201; 0x08000301; 0x08000401] /\
    mem s4 !!! 0x20000008 = 0x234 /\
    calls_of (trace (log (EvCall fn_main) s4))
    = [fn_ptr 0x08000201; fn_ptr 0x08000301; fn_ptr 0x08000401; fn_main] /\
    Startup.code stub_image fn_main (log (EvCall fn_main) s4) = Done tt s5 /\
    mem s5 !!! 0x20000010 = 0x234 /\
    Startup.Reset_Handler stub_image (3 + 2) stub_machine
    = Spinning (Nat.iter (3 + 2) nop_step s5).
Proof.
  destruct (Reset_Handler_boot_sequence stub_image
              (fun p s => ex_intro _ _ eq_refl)
              (fun f s => match f with
                          | fn_main => eq_refl
                          | fn_ptr _ => eq_refl
                          end) 3 stub_machine)
    as (_ & _ & s1 & s2 & s3 & s4 & _ & _ & _ & Hbss & Hdata & _ & _ & _
        & Hs3 & Hs4 & Hcalls & Hmain & _);
    [lia | cbn; lia | cbn; lia | cbn; lia | cbn; lia |].
  assert (Hd0 : mem s2 !!! 0x20000000 = 0xDEADBEEF)
    by (apply (Hdata 0); [lia|reflexivity]).
  assert (Hb0 : mem s2 !!! 0x20000004 = 0)
    by (apply (Hbss 0); [lia|reflexivity]).
  assert (Hb1 : mem s2 !!! 0x20000008 = 0)
    by (apply (Hbss 1); [lia|reflexivity]).
  assert (Hword : mem s4 !!! 0x20000008 = 0x234).
  { rewrite Hs4, Hs3. cbn [foldl stub_image Startup.__preinit_array
                             Startup.__init_array].
    unfold ran. cbn [Startup.code stub_image]. run_machine.
    rewrite !lookup_total_insert_eq, Hb1. reflexivity. }
  exists s2, s4, (state_of (Startup.code stub_image fn_main
                              (log (EvCall fn_main) s4))).
  split; [exact Hd0|]. split; [exact Hb0|]. split; [exact Hb1|].
  split; [by rewrite Hs4, Hs3|]. split; [exact Hword|].
  split; [exact Hcalls|]. split; [reflexivity|]. split.
  - cbn [Startup.code stub_image]. run_machine.
    rewrite lookup_total_insert_eq. exact Hword.
  - exact (proj1 (proj2 (Hmain _ eq_refl) 2%nat)).
Defined.

Lemma delayMs_returns_when_elapsed_reaches_ms_witness :
  let s := Machine false 0xFFFFFFF0 ∅ [] 0 (fun _ => 1%nat) in
  System.delayMs 33 32 s = Done tt (delayMs_exit s 32) /\
  s_tickCount (delayMs_exit s 32) = 0x10 /\
  taken (irq s) (now s) 32 = 32%nat.
Proof.
  intros s.
  exact (proj2 (proj2 (proj2 delayMs_returns_when_elapsed_reaches_ms))
           s eq_refl (fun _ => eq_refl)).
Defined.

Lemma tick_counter_written_only_by_SysTick_witness :
  let s := Machine false 0xFFFFFFFF ∅ [] 0 (fun _ => 1%nat) in
  let s1 := log (EvTick 0xFFFFFFFF) s in
  let s2 := state_of (run_apis 0 [Sleep] s1) in
  let n := Z.of_nat (taken (irq s) (now s) (now s2 - now s)) in
  0 = wrap32 (0xFFFFFFFF + n) /\
  (0xFFFFFFFF + n < 2 ^ 32 -> 0xFFFFFFFF <= 0) /\
  (0 < 0xFFFFFFFF -> 2 ^ 32 <= 0xFFFFFFFF + n).
Proof.
  intros s s1 s2.
  refine (proj2 (proj2 (proj2 (proj2 tick_counter_written_only_by_SysTick)))
            0%nat [Sleep] s 0xFFFFFFFF s1 s2 0 (log (EvTick 0) s2)
            _ eq_refl eq_refl eq_refl).
  unfold is_u32. cbn. lia.
Defined.


(** * Further properties of the code *)

(** ** System *)

(** X1. [System::reset] stores the reset request 0x05FA0004 (key 0x5FA, bit 2)
    in AIRCR once, and from then on only executes no-ops: it never
    returns, and nothing but that one word of memory changes. *)
Theorem reset_requests_once_then_spins (fuel : nat) (s : machine) :
  exists s',
    System.reset fuel s = Spinning s' /\
    trace s' = trace s ++ [EvWrite 0xE000ED0C 0x05FA0004]
                       ++ repeat (EvAsm nop) fuel /\
    mem s' = <[0xE000ED0C := 0x05FA0004]> (mem s) /\
    primask s' = primask s /\
    now s' = (now s + fuel)%nat.
Proof.
  unfold System.reset. run_machine.
  rewrite while_true_nop_spins, iter_nop_step_fields.
  eexists. split; [reflexivity|]. cbn [trace mem primask now log set_mem].
  split; [by rewrite <- app_assoc|]. by repeat split.
Qed.

(** X2. Calling [System::init] a second time changes no register: the memory
    after two calls is the memory after one, and both calls return [Ok]. *)
Theorem init_idempotent (s : machine) :
  exists s1 s2,
    System.init s = Done Ok s1 /\
    System.init s1 = Done Ok s2 /\
    mem s2 = mem s1 /\
    primask s2 = primask s /\
    s_tickCount s2 = s_tickCount s.
Proof.
  eexists. eexists. split; [reflexivity|]. split; [reflexivity|].
  unfold System.init, System.initClocks, System.initSysTick, System.initNvic.
  run_machine. split; [|by split].
  apply map_eq. intros a. rewrite !lookup_insert.
  repeat case_decide; try done; subst; exfalso; addr_ne.
Qed.

Lemma delayMs_loop_not_early (fuel : nat) (start ms : Z) (s s' : machine) :
  System.delayMs_loop fuel start ms s = Done tt s' ->
  ms <= wrap32 (s_tickCount s' - start).
Proof.
  revert s. induction fuel as [|fuel IH]; intros s; [done|].
  cbn [System.delayMs_loop]. unfold System.read_tickCount. cbv [bind].
  destruct (Z.ltb_spec (wrap32 (s_tickCount s - start)) ms) as [Hlt|Hge].
  - cbv [asm_volatile modify]. apply IH.
  - unfold ret. intros [= <-]. exact Hge.
Qed.

(** X3. [System::delayMs] never returns early, whatever the interrupt
    schedule: when it returns, the counter is at least [ms] ticks (as an
    unsigned 32-bit difference) past the value it had on entry, and it got
    there by SysTick interrupts only. *)
Theorem delayMs_never_returns_early (fuel : nat) (ms : Z) (s s' : machine) :
  System.delayMs fuel ms s = Done tt s' ->
  ms <= wrap32 (s_tickCount s' - s_tickCount s) /\
  ticks_by_isr_only s s'.
Proof.
  intros Hrun. split.
  - revert Hrun. unfold System.delayMs, System.read_tickCount. cbv [bind].
    apply delayMs_loop_not_early.
  - pose proof (quiet_run_api fuel (DelayMs ms) s) as Hq.
    cbn [run_api] in Hq. by rewrite Hrun in Hq.
Qed.

Lemma delayMs_never_returns_early_witness :
  let s := Machine false 0xFFFFFFFE ∅ [] 0 (fun n => (n + 1)%nat) in
  let s' := delayMs_exit s 2 in
  3 <= wrap32 (s_tickCount s' - s_tickCount s) /\
  ticks_by_isr_only s s'.
Proof.
  intros s s'.
  exact (delayMs_never_returns_early 5 3 s s' eq_refl).
Defined.

(** X4. Edge cases of [System::delayMs].  A delay of 0 returns at once,
    without executing a no-op.  A positive delay during which no SysTick
    interrupt is taken (for instance with interrupts masked) never
    returns, and the counter stays where it was. *)
Theorem delayMs_zero_and_no_ticks :
  (forall fuel s,
     System.delayMs (S fuel) 0 s = Done tt (delayMs_exit s 0) /\
     trace (delayMs_exit s 0)
     = trace s ++ [EvTick (s_tickCount s); EvTick (s_tickCount s)] /\
     now (delayMs_exit s 0) = now s) /\
  (forall fuel ms s,
     0 < ms -> (forall n, irq s n = 0%nat) ->
     exists s',
       System.delayMs fuel ms s = Spinning s' /\
       s_tickCount s' = s_tickCount s /\
       now s' = (now s + fuel)%nat).
Proof.
  split.
  - intros fuel s. split; [|split].
    + unfold System.delayMs, System.read_tickCount. cbv [bind].
      apply (delayMs_loop_exit 0 (S fuel) (s_tickCount s) 0
               (log (EvTick (s_tickCount s)) s)); [lia|intros; lia|].
      change (tick_at (log (EvTick (s_tickCount s)) s) 0) with (s_tickCount s).
      rewrite Z.sub_diag. done.
    + rewrite delayMs_exit_fields. cbn [trace polls_trace seq flat_map].
      unfold polls_trace. cbn. reflexivity.
    + rewrite delayMs_exit_fields. cbn [now]. lia.
  - intros fuel ms s Hms Hirq.
    assert (Hstill : forall j, tick_at s j = s_tickCount s).
    { intros j. unfold tick_at.
      assert (Ht : forall from k, taken (irq s) from k = 0%nat).
      { intros from k. revert from.
        induction k as [|k IH]; intros from; [done|].
        cbn [taken]. by rewrite Hirq, IH. }
      by rewrite Ht. }
    eexists. split.
    + unfold System.delayMs, System.read_tickCount. cbv [bind].
      apply delayMs_loop_spin. intros j Hj.
      change (tick_at (log (EvTick (s_tickCount s)) s) j) with (tick_at s j).
      rewrite Hstill, Z.sub_diag. exact Hms.
    + rewrite iter_poll_fields. cbn [s_tickCount now log].
      change (tick_at (log (EvTick (s_tickCount s)) s) fuel)
        with (tick_at s fuel).
      by rewrite Hstill.
Qed.

Lemma delayMs_zero_and_no_ticks_witness :
  let s := Machine true 7 ∅ [] 0 (fun _ => 0%nat) in
  exists s',
    System.delayMs 10 1 s = Spinning s' /\
    s_tickCount s' = 7 /\ now s' = 10%nat.
Proof.
  intros s.
  exact (proj2 delayMs_zero_and_no_ticks 10%nat 1 s ltac:(lia) (fun _ => eq_refl)).
Defined.

Lemma delayMs_one_tick_per_turn (ms : Z) (s : machine) :
  is_u32 (s_tickCount s) -> is_u32 ms ->
  (forall n, irq s n = 1%nat) ->
  System.delayMs (S (Z.to_nat ms)) ms s
  = Done tt (delayMs_exit s (Z.to_nat ms)).
Proof.
  intros Hu Hms Hirq. unfold is_u32 in Hms.
  assert (Hel : forall j, (j <= Z.to_nat ms)%nat -> elapsed s j = Z.of_nat j).
  { intros j Hj. rewrite elapsed_taken, taken_const_1 by done.
    unfold wrap32. apply Z.mod_small. lia. }
  unfold System.delayMs, System.read_tickCount. cbv [bind].
  apply (delayMs_loop_exit (Z.to_nat ms) _ (s_tickCount s) ms
           (log (EvTick (s_tickCount s)) s)); [lia| |].
  - intros j Hj. specialize (Hel j ltac:(lia)). unfold elapsed in Hel.
    change (tick_at (log (EvTick (s_tickCount s)) s) j) with (tick_at s j).
    lia.
  - specialize (Hel (Z.to_nat ms) ltac:(lia)). unfold elapsed in Hel.
    change (tick_at (log (EvTick (s_tickCount s)) s) (Z.to_nat ms))
      with (tick_at s (Z.to_nat ms)).
    lia.
Qed.

(** X5. Delays add up.  With one tick per turn of the wait loop, [delayMs(a)]
    followed by [delayMs(b)] returns after [a + b] turns with the counter
    advanced by [a + b] modulo 2^32. *)
Theorem delayMs_sequence_adds (a b : Z) (s : machine) :
  is_u32 (s_tickCount s) -> is_u32 a -> is_u32 b ->
  (forall n, irq s n = 1%nat) ->
  exists s',
    (do _ <- System.delayMs (S (Z.to_nat a)) a;
     System.delayMs (S (Z.to_nat b)) b) s = Done tt s' /\
    s_tickCount s' = wrap32 (s_tickCount s + a + b) /\
    now s' = (now s + Z.to_nat a + Z.to_nat b)%nat /\
    mem s' = mem s /\ primask s' = primask s.
Proof.
  intros Hu Ha Hb Hirq. unfold bind.
  rewrite delayMs_one_tick_per_turn by done.
  set (s1 := delayMs_exit s (Z.to_nat a)).
  assert (Hs1 : s1 = delayMs_exit s (Z.to_nat a)) by done.
  rewrite delayMs_exit_fields in Hs1.
  assert (Ht1 : s_tickCount s1 = wrap32 (s_tickCount s + a)).
  { rewrite Hs1. cbn [s_tickCount]. unfold tick_at.
    rewrite taken_const_1, increments_wrap by done.
    unfold is_u32 in Ha. f_equal. lia. }
  assert (Hu1 : is_u32 (s_tickCount s1)).
  { rewrite Ht1. unfold is_u32, wrap32. apply Z.mod_pos_bound. lia. }
  assert (Hirq1 : forall n, irq s1 n = 1%nat) by (by rewrite Hs1).
  rewrite delayMs_one_tick_per_turn by done.
  eexists. split; [reflexivity|].
  rewrite delayMs_exit_fields. cbn [s_tickCount now mem primask].
  split; [|split; [|split]].
  - unfold tick_at. rewrite taken_const_1, increments_wrap by done.
    rewrite Ht1. unfold wrap32. unfold is_u32 in Hb.
    rewrite Zplus_mod_idemp_l. f_equal. lia.
  - rewrite Hs1. cbn [now]. lia.
  - by rewrite Hs1.
  - by rewrite Hs1.
Qed.

Lemma delayMs_sequence_adds_witness :
  let s := Machine false 0xFFFFFFFF ∅ [] 0 (fun _ => 1%nat) in
  exists s',
    (do _ <- System.delayMs 3 2; System.delayMs 4 3) s = Done tt s' /\
    s_tickCount s' = 4.
Proof.
  intros s.
  destruct (delayMs_sequence_adds 2 3 s) as (s' & Hrun & Ht & _);
    [unfold is_u32; cbn; lia | unfold is_u32; lia | unfold is_u32; lia
    | done |].
  exists s'. split; [exact Hrun|]. rewrite Ht. reflexivity.
Defined.

(** X6. Below the point where [168 * us] leaves 32 bits, [System::delayUs]
    waits exactly 42 loop turns per microsecond: it returns after [42 * us]
    no-ops, none for [us = 0]. *)
Theorem delayUs_42_turns_per_microsecond (fuel : nat) (us : Z) (s : machine) :
  0 <= us <= 25565281 ->
  (Z.to_nat (42 * us) < fuel)%nat ->
  System.delayUs_cycles us = 42 * us /\
  exists s',
    System.delayUs fuel us s = Done tt s' /\
    trace s' = trace s ++ repeat (EvAsm nop) (Z.to_nat (42 * us)) /\
    now s' = (now s + Z.to_nat (42 * us))%nat /\
    mem s' = mem s /\ primask s' = primask s.
Proof.
  intros Hus Hfuel.
  assert (Hc : System.delayUs_cycles us = 42 * us).
  { unfold System.delayUs_cycles, wrap32.
    change (SYSTEM_CLOCK_HZ `div` 1000000) with 168.
    change (168 `mod` 2 ^ 32) with 168.
    rewrite Z.mod_small by lia.
    replace (168 * us) with (42 * us * 4) by lia.
    apply Z.div_mul. lia. }
  split; [exact Hc|].
  eexists. split.
  - apply delayUs_runs. by rewrite Hc.
  - rewrite Hc, iter_nop_step_fields. by cbn [trace now mem primask].
Qed.

Lemma delayUs_42_turns_per_microsecond_witness :
  exists s',
    System.delayUs 100 2 stub_machine = Done tt s' /\
    now s' = 84%nat.
Proof.
  destruct (delayUs_42_turns_per_microsecond 100 2 stub_machine)
    as (_ & s' & Hrun & _ & Hnow & _); [lia | cbn; lia |].
  exists s'. split; [exact Hrun|]. exact Hnow.
Defined.

(** X7. [System::delayUs] always comes back: whatever [us] is, it returns
    within 2^30 turns of its loop, having changed neither memory nor the
    interrupt mask. *)
Theorem delayUs_always_returns (us : Z) (s : machine) :
  exists s' (n : nat),
    System.delayUs (Z.to_nat (2 ^ 30)) us s = Done tt s' /\
    Z.of_nat n < 2 ^ 30 /\
    now s' = (now s + n)%nat /\
    trace s' = trace s ++ repeat (EvAsm nop) n /\
    mem s' = mem s /\ primask s' = primask s.
Proof.
  pose proof (delayUs_cycles_bound us) as Hb.
  exists (Nat.iter (Z.to_nat (System.delayUs_cycles us)) nop_step s),
         (Z.to_nat (System.delayUs_cycles us)).
  split; [apply delayUs_runs; lia|].
  split; [lia|].
  rewrite iter_nop_step_fields. by cbn [trace now mem primask].
Qed.

(** ** Critical sections at any depth *)

(** X8. Guards nest to any depth.  If the protected code returns and leaves
    the mask set whenever it is entered with the mask set, then [depth]
    nested guards around it (at least one) return with the mask equal to
    its value before the outermost guard; the protected code is only ever
    entered with interrupts masked. *)
Theorem guarded_restores_mask (depth : nat) (body : M unit) (s : machine) :
  (forall s0, primask s0 = true ->
              exists s1, body s0 = Done tt s1 /\ primask s1 = true) ->
  exists s',
    guarded (S depth) body s = Done tt s' /\
    primask s' = primask s.
Proof.
  intros Hbody. revert s.
  assert (Hin : forall d s0, primask s0 = true ->
            exists s1, guarded d body s0 = Done tt s1 /\ primask s1 = true).
  { induction d as [|d IH]; intros s0 Hm; [by apply Hbody|].
    cbn [guarded]. unfold CriticalSection_ctor, CriticalSection_dtor.
    unfold bind at 1 2.
    destruct (disableInterrupts_spec s0) as (s1 & -> & Hp1 & _).
    unfold ret at 1. unfold bind at 1. cbn [m_primask].
    destruct (IH s1 Hp1) as (s2 & -> & Hp2).
    destruct (restoreInterrupts_spec (Z.b2z (primask s0)) s2)
      as (s3 & -> & Hp3 & _).
    exists s3. split; [done|]. by rewrite Hp3, testbit_b2z. }
  intros s. cbn [guarded]. unfold CriticalSection_ctor, CriticalSection_dtor.
  unfold bind at 1 2.
  destruct (disableInterrupts_spec s) as (s1 & -> & Hp1 & _).
  unfold ret at 1. unfold bind at 1. cbn [m_primask].
  destruct (Hin depth s1 Hp1) as (s2 & -> & Hp2).
  destruct (restoreInterrupts_spec (Z.b2z (primask s)) s2)
    as (s3 & -> & Hp3 & _).
  exists s3. split; [done|]. by rewrite Hp3, testbit_b2z.
Qed.

Lemma guarded_restores_mask_witness :
  exists s',
    guarded 3 (store 0x20000000 1) stub_machine = Done tt s' /\
    primask s' = false.
Proof.
  exact (guarded_restores_mask 2 (store 0x20000000 1) stub_machine
           (fun s0 H => ex_intro _ _ (conj eq_refl H))).
Defined.

(** ** Startup code, beyond the boot sequence *)

Section BootFrame.

Import Startup.

Variable img : image.

Lemma copy_data_frame (fuel : nat) (src dst : Z) (s : machine) :
  (0 < fuel)%nat ->
  _edata img - dst + 4 <= 4 * Z.of_nat fuel ->
  exists m1,
    copy_data img fuel src dst s = Done tt (set_mem m1 s) /\
    (forall a, a < dst \/ _edata img <= a -> m1 !!! a = mem s !!! a) /\
    (_edata img <= dst -> m1 = mem s).
Proof.
  revert src dst s.
  induction fuel as [|f IH]; intros src dst s Hpos Hf; [lia|].
  cbn [copy_data].
  destruct (Z.ltb_spec dst (_edata img)) as [Hlt|Hge].
  - run_machine.
    destruct (IH (src + 4) (dst + 4)
                (set_mem (<[dst:=mem s !!! src]> (mem s)) s))
      as (m1 & Hrun & Hfr & _); [lia|lia|].
    exists m1. split; [exact Hrun|]. split; [|intros; lia].
    intros a Ha. rewrite Hfr by lia. cbn [mem set_mem].
    apply lookup_total_insert_ne. lia.
  - exists (mem s). split; [by destruct s|]. by split.
Qed.

Lemma zero_bss_frame (fuel : nat) (dst : Z) (s : machine) :
  (0 < fuel)%nat ->
  _ebss img - dst + 4 <= 4 * Z.of_nat fuel ->
  exists m2,
    zero_bss img fuel dst s = Done tt (set_mem m2 s) /\
    (forall a, a < dst \/ _ebss img <= a -> m2 !!! a = mem s !!! a) /\
    (_ebss img <= dst -> m2 = mem s).
Proof.
  revert dst s.
  induction fuel as [|f IH]; intros dst s Hpos Hf; [lia|].
  cbn [zero_bss].
  destruct (Z.ltb_spec dst (_ebss img)) as [Hlt|Hge].
  - run_machine.
    destruct (IH (dst + 4) (set_mem (<[dst:=0]> (mem s)) s))
      as (m2 & Hrun & Hfr & _); [lia|lia|].
    exists m2. split; [exact Hrun|]. split; [|intros; lia].
    intros a Ha. rewrite Hfr by lia. cbn [mem set_mem].
    apply lookup_total_insert_ne. lia.
  - exists (mem s). split; [by destruct s|]. by split.
Qed.

(** X9. The memory initialisation of the reset handler writes no word of
    memory outside the two regions: every word below or above
    [_sdata, _edata) and [_sbss, _ebss) keeps its value, the interrupt
    mask is left alone and no volatile access, instruction or call is
    made.  When both regions are empty memory is unchanged. *)
Theorem crt_init_frame (fuel : nat) (s : machine) :
  (0 < fuel)%nat ->
  _edata img - _sdata img + 4 <= 4 * Z.of_nat fuel ->
  _ebss img - _sbss img + 4 <= 4 * Z.of_nat fuel ->
  exists s',
    (do _ <- copy_data img fuel (_sidata img) (_sdata img);
     zero_bss img fuel (_sbss img)) s = Done tt s' /\
    (forall a,
       a < _sdata img \/ _edata img <= a ->
       a < _sbss img \/ _ebss img <= a ->
       mem s' !!! a = mem s !!! a) /\
    primask s' = primask s /\
    trace s' = trace s /\
    (_edata img <= _sdata img -> _ebss img <= _sbss img -> mem s' = mem s).
Proof.
  intros Hpos Hdata Hbss.
  destruct (copy_data_frame fuel (_sidata img) (_sdata img) s)
    as (m1 & Hrun1 & Hfr1 & He1); [done..|].
  destruct (zero_bss_frame fuel (_sbss img) (set_mem m1 s))
    as (m2 & Hrun2 & Hfr2 & He2); [done..|].
  exists (set_mem m2 (set_mem m1 s)). unfold bind. rewrite Hrun1, Hrun2.
  split; [done|]. cbn [mem primask trace set_mem]. split; [|split; [|split]].
  - intros a Ha Hb. rewrite Hfr2 by done. cbn [mem set_mem]. by apply Hfr1.
  - reflexivity.
  - reflexivity.
  - intros Hd Hb. rewrite He2 by done. cbn [mem set_mem]. by apply He1.
Qed.

End BootFrame.

Lemma crt_init_frame_witness :
  exists s',
    (do _ <- Startup.copy_data stub_image 3 0x08001000 0x20000000;
     Startup.zero_bss stub_image 3 0x20000004) stub_machine
    = Done tt s' /\
    mem s' !!! 0x08001000 = 0xDEADBEEF /\
    primask s' = false /\
    trace s' = [].
Proof.
  destruct (crt_init_frame stub_image 3 stub_machine)
    as (s' & Hrun & Hframe & Hmask & Htrace & _);
    [lia | cbn; lia | cbn; lia |].
  exists s'. split; [exact Hrun|]. split; [|split; [exact Hmask|exact Htrace]].
  apply (Hframe 0x08001000); cbn; lia.
Defined.

Section BootHang.

Import Startup.

Variable img : image.

Lemma call_array_app (a1 a2 : list Z) (s : machine) :
  call_array img (a1 ++ a2) s
  = (do _ <- call_array img a1; call_array img a2) s.
Proof.
  revert s. induction a1 as [|p a1 IH]; intros s; [done|].
  cbn [app call_array]. unfold bind.
  destruct (call img (fn_ptr p) s) as [[] s1|s1]; [|done].
  rewrite IH. reflexivity.
Qed.

Lemma call_arrays_then {C} (a1 a2 : list Z) (k : M C) (s : machine) :
  (do _ <- call_array img a1; do _ <- call_array img a2; k) s
  = (do _ <- call_array img (a1 ++ a2); k) s.
Proof.
  unfold bind at 3. rewrite call_array_app. unfold bind.
  by destruct (call_array img a1 s) as [[] s1|s1].
Qed.

Hypothesis callees_make_no_calls :
  forall f s, calls_of (trace (state_of (code img f s))) = calls_of (trace s).

Lemma call_array_hangs (pre : list Z) (p : Z) (post : list Z) (s : machine) :
  (forall q s0, q ∈ pre -> exists s1, code img (fn_ptr q) s0 = Done tt s1) ->
  (forall s0, exists s1, code img (fn_ptr p) s0 = Spinning s1) ->
  exists s',
    call_array img (pre ++ p :: post) s = Spinning s' /\
    calls_of (trace s')
    = calls_of (trace s) ++ map fn_ptr pre ++ [fn_ptr p].
Proof.
  intros Hpre Hp. revert s.
  induction pre as [|q pre IH]; intros s.
  - cbn [app call_array map]. unfold call. run_machine.
    destruct (Hp (log (EvCall (fn_ptr p)) s)) as [s1 Hs1].
    pose proof (callees_make_no_calls (fn_ptr p) (log (EvCall (fn_ptr p)) s)) as Hc.
    rewrite Hs1 in *. cbn [state_of] in Hc.
    exists s1. split; [done|]. rewrite Hc. unfold log. cbn [trace].
    by rewrite calls_of_app.
  - cbn [app call_array map]. unfold call at 1. run_machine.
    destruct (Hpre q (log (EvCall (fn_ptr q)) s)) as [s1 Hs1];
      [apply list_elem_of_here|].
    pose proof (callees_make_no_calls (fn_ptr q) (log (EvCall (fn_ptr q)) s)) as Hc.
    rewrite Hs1 in *. cbn [state_of] in Hc.
    destruct IH with (s := s1) as (s' & Hrun & Hcalls).
    { intros q' s0 Hin. apply Hpre. by apply list_elem_of_further. }
    exists s'. split; [exact Hrun|].
    rewrite Hcalls, Hc. unfold log. cbn [trace].
    rewrite calls_of_app. cbn. by rewrite <- !app_assoc.
Qed.

(** X10. [main] is reached only after every constructor has returned.  If the
    constructors before [p] (in pre-init then init order) return and [p]
    never does, the reset handler stays inside [p]: the calls made are
    those up to [p] and no others, so neither a later constructor nor
    [main] is ever called. *)
Theorem Reset_Handler_stuck_in_constructor
    (fuel : nat) (pre : list Z) (p : Z) (post : list Z) (s : machine) :
  (0 < fuel)%nat ->
  _edata img - _sdata img + 4 <= 4 * Z.of_nat fuel ->
  _ebss img - _sbss img + 4 <= 4 * Z.of_nat fuel ->
  __preinit_array img ++ __init_array img = pre ++ p :: post ->
  (forall q s0, q ∈ pre -> exists s1, code img (fn_ptr q) s0 = Done tt s1) ->
  (forall s0, exists s1, code img (fn_ptr p) s0 = Spinning s1) ->
  exists s',
    Reset_Handler img fuel s = Spinning s' /\
    calls_of (trace s')
    = calls_of (trace s) ++ map fn_ptr pre ++ [fn_ptr p].
Proof.
  intros Hpos Hdata Hbss Harr Hpre Hp.
  destruct (copy_data_frame img fuel (_sidata img) (_sdata img) s)
    as (m1 & Hrun1 & _); [done..|].
  destruct (zero_bss_frame img fuel (_sbss img) (set_mem m1 s))
    as (m2 & Hrun2 & _); [done..|].
  destruct (call_array_hangs pre p post (set_mem m2 (set_mem m1 s)) Hpre Hp)
    as (s' & Hhang & Hcalls).
  exists s'. split; [|exact Hcalls].
  unfold Reset_Handler. unfold bind at 1. rewrite Hrun1.
  unfold bind at 1. rewrite Hrun2.
  rewrite call_arrays_then, Harr. unfold bind at 1. by rewrite Hhang.
Qed.

End BootHang.

Lemma Reset_Handler_stuck_in_constructor_witness :
  let img := Startup.Image 0x20020000 0x08001000 0x20000000 0x20000004
               0x20000004 0x2000000C [0x08000201] [0x08000301; 0x08000401]
               (fun f => match f with
                         | fn_ptr a =>
                             if a =? 0x08000301
                             then fun s => Spinning s
                             else ret tt
                         | fn_main => ret tt
                         end) in
  exists s',
    Startup.Reset_Handler img 3 stub_machine = Spinning s' /\
    calls_of (trace s') = [fn_ptr 0x08000201; fn_ptr 0x08000301].
Proof.
  intros img.
  refine (Reset_Handler_stuck_in_constructor img _ 3 [0x08000201] 0x08000301
            [0x08000401] stub_machine _ _ _ eq_refl _ _).
  - intros f s. destruct f as [|a]; [done|].
    cbn. by destruct (a =? 134218497).
  - lia.
  - cbn. lia.
  - cbn. lia.
  - intros q s0 Hq. apply list_elem_of_singleton in Hq as ->.
    by eexists.
  - intros s0. by eexists.
Defined.

(** X11. An interrupt left on [Default_Handler] traps for good: the handler
    executes no-ops only, never returns, and leaves memory and the
    interrupt mask as they were. *)
Theorem Default_Handler_traps (fuel : nat) (s : machine) :
  exists s',
    Startup.Default_Handler fuel s = Spinning s' /\
    trace s' = trace s ++ repeat (EvAsm nop) fuel /\
    mem s' = mem s /\ primask s' = primask s /\
    now s' = (now s + fuel)%nat.
Proof.
  unfold Startup.Default_Handler.
  rewrite while_true_nop_spins, iter_nop_step_fields.
  eexists. split; [reflexivity|]. by cbn [trace mem primask now].
Qed.

(** ** Bit macros *)

Lemma testbit_wrap32 (x i : Z) :
  0 <= i -> Z.testbit (wrap32 x) i = (i <? 32) && Z.testbit x i.
Proof.
  intros Hi. unfold wrap32. destruct (Z.ltb_spec i 32).
  - by rewrite Z.mod_pow2_bits_low.
  - by rewrite Z.mod_pow2_bits_high.
Qed.

Lemma testbit_u32_high (x i : Z) :
  is_u32 x -> 32 <= i -> Z.testbit x i = false.
Proof.
  unfold is_u32. intros Hx Hi.
  rewrite <- (Z.mod_small x (2 ^ 32)) by lia.
  apply Z.mod_pow2_bits_high. lia.
Qed.

Lemma is_u32_of_high_bits (x : Z) :
  (forall i, 32 <= i -> Z.testbit x i = false) -> is_u32 x.
Proof.
  intros Hhigh.
  assert (Hx : x = wrap32 x).
  { apply Z.bits_inj'. intros i Hi. rewrite testbit_wrap32 by done.
    destruct (Z.ltb_spec i 32); [done|]. by apply Hhigh. }
  rewrite Hx. unfold is_u32, wrap32. apply Z.mod_pos_bound. lia.
Qed.

(** Compare two words bit by bit, the bits from 32 up being clear in a
    [u32]. *)
Ltac by_bits :=
  apply Z.bits_inj'; intros i Hi;
  repeat first
    [ rewrite Z.land_spec | rewrite Z.lor_spec | rewrite Z.lxor_spec
    | rewrite testbit_wrap32 by lia | rewrite Z.lnot_spec by lia
    | rewrite Z.bits_0 ];
  destruct (Z.ltb_spec i 32);
  repeat match goal with
         | H : is_u32 ?x |- context [Z.testbit ?x i] =>
             rewrite (testbit_u32_high x i H) by lia
         end;
  repeat match goal with
         | |- context [Z.testbit ?x i] => destruct (Z.testbit x i)
         end;
  try reflexivity.

(** X12. Setting, clearing and reading a mask in a 32-bit register: after
    [SET_BIT] the mask reads back in full, after [CLEAR_BIT] it reads 0,
    the later of a set and a clear wins, and bits outside the mask read as
    before.  Both results are again 32-bit values. *)
Theorem bit_macros_set_clear_read (reg bit other : Z) :
  is_u32 reg -> is_u32 bit -> is_u32 other -> Z.land other bit = 0 ->
  READ_BIT (SET_BIT reg bit) bit = bit /\
  READ_BIT (CLEAR_BIT reg bit) bit = 0 /\
  CLEAR_BIT (SET_BIT reg bit) bit = CLEAR_BIT reg bit /\
  SET_BIT (CLEAR_BIT reg bit) bit = SET_BIT reg bit /\
  READ_BIT (SET_BIT reg bit) other = READ_BIT reg other /\
  READ_BIT (CLEAR_BIT reg bit) other = READ_BIT reg other /\
  is_u32 (SET_BIT reg bit) /\ is_u32 (CLEAR_BIT reg bit).
Proof.
  intros Hreg Hbit Hother Hdisj.
  unfold READ_BIT, SET_BIT, CLEAR_BIT.
  assert (Hd : forall i, Z.testbit other i && Z.testbit bit i = false).
  { intros i. rewrite <- Z.land_spec, Hdisj. apply Z.bits_0. }
  repeat split.
  - by_bits.
  - by_bits.
  - by_bits.
  - by_bits.
  - apply Z.bits_inj'. intros i Hi. rewrite !Z.land_spec, Z.lor_spec.
    specialize (Hd i).
    destruct (Z.testbit reg i), (Z.testbit bit i), (Z.testbit other i);
      done.
  - apply Z.bits_inj'. intros i Hi.
    rewrite !Z.land_spec, testbit_wrap32, Z.lnot_spec by lia.
    specialize (Hd i). destruct (Z.ltb_spec i 32).
    + destruct (Z.testbit reg i), (Z.testbit bit i), (Z.testbit other i);
        done.
    + rewrite (testbit_u32_high reg i) by (done || lia). done.
  - unfold is_u32 in *. apply Z.lor_nonneg. lia.
  - apply (is_u32_of_high_bits (Z.lor reg bit)). intros i Hi.
    by rewrite Z.lor_spec, !testbit_u32_high.
  - unfold is_u32 in *. apply Z.land_nonneg. lia.
  - apply (is_u32_of_high_bits (Z.land reg (wrap32 (Z.lnot bit)))).
    intros i Hi. by rewrite Z.land_spec, (testbit_u32_high reg).
Qed.

Lemma bit_macros_set_clear_read_witness :
  READ_BIT (SET_BIT 0x10 0x6) 0x6 = 0x6 /\
  READ_BIT (CLEAR_BIT 0x16 0x6) 0x6 = 0 /\
  CLEAR_BIT (SET_BIT 0x10 0x6) 0x6 = CLEAR_BIT 0x10 0x6 /\
  SET_BIT (CLEAR_BIT 0x10 0x6) 0x6 = SET_BIT 0x10 0x6 /\
  READ_BIT (SET_BIT 0x10 0x6) 0x10 = READ_BIT 0x10 0x10 /\
  READ_BIT (CLEAR_BIT 0x10 0x6) 0x10 = READ_BIT 0x10 0x10 /\
  is_u32 (SET_BIT 0x10 0x6) /\ is_u32 (CLEAR_BIT 0x10 0x6).
Proof.
  pose proof (bit_macros_set_clear_read 0x10 0x6 0x10) as H.
  pose proof (bit_macros_set_clear_read 0x16 0x6 0x10) as H'.
  assert (Hu : forall x, 0 <= x < 0x100 -> is_u32 x)
    by (unfold is_u32; lia).
  destruct H as (H1 & _ & H3 & H4 & H5 & H6 & H7 & H8);
    [apply Hu; lia | apply Hu; lia | apply Hu; lia | reflexivity |].
  destruct H' as (_ & H2 & _);
    [apply Hu; lia | apply Hu; lia | apply Hu; lia | reflexivity |].
  repeat split; assumption || apply H7 || apply H8.
Defined.

(** X13. [TOGGLE_BIT] is its own inverse; on a mask that reads 0 it acts as
    [SET_BIT], and on a mask that reads back in full it acts as
    [CLEAR_BIT]. *)
Theorem toggle_bit_twice (reg bit : Z) :
  is_u32 reg -> is_u32 bit ->
  TOGGLE_BIT (TOGGLE_BIT reg bit) bit = reg /\
  (READ_BIT reg bit = 0 -> TOGGLE_BIT reg bit = SET_BIT reg bit) /\
  (READ_BIT reg bit = bit -> TOGGLE_BIT reg bit = CLEAR_BIT reg bit) /\
  is_u32 (TOGGLE_BIT reg bit).
Proof.
  intros Hreg Hbit. unfold TOGGLE_BIT, READ_BIT, SET_BIT, CLEAR_BIT.
  split; [|split; [|split]].
  - by_bits.
  - intros Hclear. apply Z.bits_inj'. intros i Hi.
    rewrite Z.lxor_spec, Z.lor_spec.
    assert (Hd : Z.testbit reg i && Z.testbit bit i = false)
      by (rewrite <- Z.land_spec, Hclear; apply Z.bits_0).
    by destruct (Z.testbit reg i), (Z.testbit bit i).
  - intros Hset. apply Z.bits_inj'. intros i Hi.
    rewrite Z.lxor_spec, Z.land_spec, testbit_wrap32, Z.lnot_spec by lia.
    assert (Hd : Z.testbit reg i && Z.testbit bit i = Z.testbit bit i)
      by (by rewrite <- Z.land_spec, Hset).
    destruct (Z.ltb_spec i 32).
    + by destruct (Z.testbit reg i), (Z.testbit bit i).
    + by rewrite !testbit_u32_high.
  - apply (is_u32_of_high_bits (Z.lxor reg bit)). intros i Hi.
    by rewrite Z.lxor_spec, !testbit_u32_high.
Qed.

Lemma toggle_bit_twice_witness :
  TOGGLE_BIT (TOGGLE_BIT 0x15 0x6) 0x6 = 0x15.
Proof.
  apply (toggle_bit_twice 0x15 0x6); unfold is_u32; lia.
Defined.

(** X14. For a bit number below 32, [BIT(n)] is the word with bit [n] alone:
    setting it sets bit [n], clearing it clears bit [n], toggling it flips
    bit [n], and in each case every other bit of the register is left as
    it was. *)
Theorem BIT_selects_one_bit (reg n i : Z) :
  is_u32 reg -> 0 <= n < 32 -> 0 <= i < 32 ->
  BIT n = 2 ^ n /\
  Z.testbit (SET_BIT reg (BIT n)) i = (if i =? n then true else Z.testbit reg i) /\
  Z.testbit (CLEAR_BIT reg (BIT n)) i = (if i =? n then false else Z.testbit reg i) /\
  Z.testbit (TOGGLE_BIT reg (BIT n)) i
  = (if i =? n then negb (Z.testbit reg i) else Z.testbit reg i) /\
  (READ_BIT reg (BIT n) = 0 <-> Z.testbit reg n = false).
Proof.
  intros Hreg Hn Hi.
  assert (HB : BIT n = 2 ^ n).
  { unfold BIT, wrap32. rewrite Z.shiftl_1_l. apply Z.mod_small.
    split; [apply Z.pow_nonneg; lia|]. apply Z.pow_lt_mono_r; lia. }
  assert (Hbit : forall j, 0 <= j -> Z.testbit (2 ^ n) j = (j =? n)).
  { intros j Hj. destruct (Z.eqb_spec j n) as [->|Hne].
    - apply Z.pow2_bits_true. lia.
    - apply Z.pow2_bits_false. lia. }
  split; [exact HB|]. rewrite HB.
  unfold SET_BIT, CLEAR_BIT, TOGGLE_BIT, READ_BIT.
  rewrite Z.lor_spec, Z.land_spec, Z.lxor_spec, testbit_wrap32,
    Z.lnot_spec, !Hbit by lia.
  destruct (Z.ltb_spec i 32); [|lia].
  split; [|split; [|split]].
  - destruct (i =? n), (Z.testbit reg i); done.
  - destruct (i =? n), (Z.testbit reg i); done.
  - destruct (i =? n), (Z.testbit reg i); done.
  - split.
    + intros Hz. assert (Hb := f_equal (fun z => Z.testbit z n) Hz).
      cbn beta in Hb. rewrite Z.land_spec, Hbit, Z.eqb_refl, Z.bits_0 in Hb by lia.
      by rewrite andb_true_r in Hb.
    + intros Hz. apply Z.bits_inj'. intros j Hj.
      rewrite Z.land_spec, Hbit, Z.bits_0 by lia.
      destruct (Z.eqb_spec j n) as [->|]; [by rewrite Hz|apply andb_false_r].
Qed.

Lemma BIT_selects_one_bit_witness :
  BIT 2 = 4 /\ Z.testbit (SET_BIT 0x10 (BIT 2)) 2 = true.
Proof.
  destruct (BIT_selects_one_bit 0x10 2 2) as (H1 & H2 & _);
    [unfold is_u32; lia | lia | lia |].
  split; [exact H1 | exact H2].
Defined.

(** ** Decimal formatting in the application loops *)

Section Formatting.

Import App.

Lemma array_put_app (pre : list Z) (x : Z) (rest : list Z) (i c : Z) :
  i = Z.of_nat (length pre) ->
  array_put (pre ++ x :: rest) i c = Val (pre ++ c :: rest).
Proof.
  intros ->. unfold array_put. rewrite length_app. cbn [length].
  destruct (Z.leb_spec 0 (Z.of_nat (length pre))); [|lia].
  destruct (Z.ltb_spec (Z.of_nat (length pre))
              (Z.of_nat (length pre + S (length rest)))); [|lia].
  cbn [andb]. rewrite Nat2Z.id. f_equal.
  rewrite insert_app_r_alt by lia. by rewrite Nat.sub_diag.
Qed.

Lemma array_put_outside (a : list Z) (i c : Z) :
  Z.of_nat (length a) <= i -> array_put a i c = OutOfBounds.
Proof.
  intros Hi. unfold array_put.
  destruct (Z.ltb_spec i (Z.of_nat (length a))); [lia|].
  by rewrite andb_false_r.
Qed.

Lemma array_put_length (a a' : list Z) (i c : Z) :
  array_put a i c = Val a' ->
  length a' = length a /\ 0 <= i < Z.of_nat (length a).
Proof.
  unfold array_put.
  destruct (Z.leb_spec 0 i), (Z.ltb_spec i (Z.of_nat (length a)));
    cbn [andb]; intros [= <-].
  split; [apply length_insert|lia].
Qed.

Lemma array_get_app (pre : list Z) (x : Z) (rest : list Z) (i : Z) :
  i = Z.of_nat (length pre) ->
  array_get (pre ++ x :: rest) i = Val x.
Proof.
  intros ->. unfold array_get.
  destruct (Z.leb_spec 0 (Z.of_nat (length pre))); [|lia].
  rewrite Nat2Z.id, lookup_app_r by lia. by rewrite Nat.sub_diag.
Qed.

Lemma pow10_pos (n : nat) : 0 < 10 ^ Z.of_nat n.
Proof. apply Z.pow_pos_nonneg; lia. Qed.

Lemma pow10_succ (n : nat) : 10 ^ Z.of_nat (S n) = 10 * 10 ^ Z.of_nat n.
Proof. rewrite Nat2Z.inj_succ. apply Z.pow_succ_r. lia. Qed.

Lemma digits_count_exists (k : nat) (x : Z) :
  0 < x < 10 ^ Z.of_nat k ->
  exists n, (n < k)%nat /\ 10 ^ Z.of_nat n <= x < 10 ^ Z.of_nat (S n).
Proof.
  induction k as [|k IH]; intros Hx.
  - cbn in Hx. lia.
  - destruct (Z_lt_le_dec x (10 ^ Z.of_nat k)) as [Hlt|Hge].
    + destruct IH as (n & Hn & Hb); [lia|]. exists n. split; [lia|done].
    + exists k. split; [lia|]. lia.
Qed.

Lemma digits_loop_spec (n : nat) :
  forall (x : Z) (pre rest : list Z) (fuel : nat),
    10 ^ Z.of_nat n <= x < 10 ^ Z.of_nat (S n) ->
    (S n < fuel)%nat ->
    digits_loop fuel x (pre ++ rest) (Z.of_nat (length pre))
    = if (S n <=? length rest)%nat
      then Val (pre ++ lsd_digits (S n) x ++ drop (S n) rest,
                Z.of_nat (length pre + S n))
      else OutOfBounds.
Proof.
  induction n as [|n IH]; intros x pre rest fuel Hx Hfuel.
  - change (10 ^ Z.of_nat 0) with 1 in Hx. change (10 ^ Z.of_nat 1) with 10 in Hx.
    destruct fuel as [|[|fuel]]; [lia|lia|].
    cbn [digits_loop]. destruct (Z.ltb_spec 0 x); [|lia].
    destruct rest as [|r0 rest].
    + rewrite app_nil_r, array_put_outside by lia. reflexivity.
    + rewrite array_put_app by done. cbn [rbind].
      replace (x `div` 10) with 0 by (symmetry; apply Z.div_small; lia).
      cbn [Z.ltb Z.compare Nat.leb lsd_digits drop app].
      do 2 f_equal. lia.
  - pose proof (pow10_pos (S n)) as Hpos.
    destruct fuel as [|fuel]; [lia|].
    cbn [digits_loop]. destruct (Z.ltb_spec 0 x); [|lia].
    destruct rest as [|r0 rest].
    + rewrite app_nil_r, array_put_outside by lia. reflexivity.
    + rewrite array_put_app by done. cbn [rbind].
      replace (pre ++ (48 + x `mod` 10) :: rest)
        with ((pre ++ [48 + x `mod` 10]) ++ rest)
        by (by rewrite <- app_assoc).
      replace (Z.of_nat (length pre) + 1)
        with (Z.of_nat (length (pre ++ [48 + x `mod` 10])))
        by (rewrite length_app; cbn [length]; lia).
      rewrite (IH (x `div` 10)); [| |lia].
      * change (S (S n) <=? length (r0 :: rest))%nat
          with (S n <=? length rest)%nat.
        destruct (S n <=? length rest)%nat; [|done].
        rewrite <- app_assoc, length_app. cbn [length app lsd_digits drop].
        do 2 f_equal. lia.
      * rewrite (pow10_succ (S n)), (pow10_succ n) in Hx.
        rewrite (pow10_succ n).
        split.
        -- apply Z.div_le_lower_bound; lia.
        -- apply Z.div_lt_upper_bound; lia.
Qed.

Lemma reverse_loop_spec (ds : list Z) :
  forall (trest bpre brest : list Z) (fuel : nat),
    (length ds < fuel)%nat ->
    reverse_loop fuel (ds ++ trest) (Z.of_nat (length ds))
                 (bpre ++ brest) (Z.of_nat (length bpre))
    = if (length ds <=? length brest)%nat
      then Val (bpre ++ rev ds ++ drop (length ds) brest,
                Z.of_nat (length bpre + length ds))
      else OutOfBounds.
Proof.
  induction ds as [|d ds IH] using rev_ind; intros trest bpre brest fuel Hfuel.
  - destruct fuel as [|fuel]; [cbn in Hfuel; lia|].
    cbn [reverse_loop length Z.of_nat Z.ltb Z.compare Nat.leb rev app drop].
    do 2 f_equal. lia.
  - rewrite length_app in *. cbn [length] in *.
    destruct fuel as [|fuel]; [lia|].
    cbn [reverse_loop].
    destruct (Z.ltb_spec 0 (Z.of_nat (length ds + 1))); [|lia].
    rewrite <- app_assoc. cbn [app].
    rewrite array_get_app by lia. cbn [rbind].
    destruct brest as [|b0 brest].
    + rewrite app_nil_r, array_put_outside by lia. cbn [rbind].
      replace (length ds + 1)%nat with (S (length ds)) by lia. reflexivity.
    + rewrite array_put_app by done. cbn [rbind].
      replace (bpre ++ d :: brest) with ((bpre ++ [d]) ++ brest)
        by (by rewrite <- app_assoc).
      replace (Z.of_nat (length bpre) + 1)
        with (Z.of_nat (length (bpre ++ [d])))
        by (rewrite length_app; cbn [length]; lia).
      replace (Z.of_nat (length ds + 1) - 1) with (Z.of_nat (length ds)) by lia.
      rewrite (IH (d :: trest) (bpre ++ [d]) brest fuel) by lia.
      replace (length ds + 1)%nat with (S (length ds)) by lia.
      change (S (length ds) <=? length (b0 :: brest))%nat
        with (length ds <=? length brest)%nat.
      destruct (length ds <=? length brest)%nat; [|done].
      rewrite rev_app_distr, <- app_assoc, length_app.
      cbn [length app rev drop]. do 2 f_equal. lia.
Qed.

Lemma lsd_digits_length (n : nat) (x : Z) : length (lsd_digits n x) = n.
Proof.
  revert x. induction n as [|n IH]; intros x; [done|].
  cbn [lsd_digits length]. by rewrite IH.
Qed.

Lemma lsd_digits_chars (n : nat) (x : Z) :
  Forall (fun c => 48 <= c <= 57) (lsd_digits n x).
Proof.
  revert x. induction n as [|n IH]; intros x; cbn [lsd_digits].
  - constructor.
  - constructor; [|apply IH].
    pose proof (Z.mod_pos_bound x 10 ltac:(lia)). lia.
Qed.

Lemma parse_decimal_snoc (ds : list Z) (c : Z) :
  parse_decimal (ds ++ [c]) = 10 * parse_decimal ds + (c - 48).
Proof. unfold parse_decimal. by rewrite fold_left_app. Qed.

Lemma parse_decimal_lsd (n : nat) (x : Z) :
  0 <= x < 10 ^ Z.of_nat n ->
  parse_decimal (rev (lsd_digits n x)) = x.
Proof.
  revert x. induction n as [|n IH]; intros x Hx.
  - change (10 ^ Z.of_nat 0) with 1 in Hx. cbn. lia.
  - cbn [lsd_digits rev]. rewrite parse_decimal_snoc, IH.
    + pose proof (Z.div_mod x 10 ltac:(lia)). lia.
    + rewrite pow10_succ in Hx. split.
      * apply Z.div_pos; lia.
      * apply Z.div_lt_upper_bound; lia.
Qed.

Lemma c_str_app (ds rest : list Z) :
  Forall (fun c => c <> 0) ds -> c_str (ds ++ 0 :: rest) = ds.
Proof.
  induction 1 as [|c ds Hc _ IH]; cbn [app c_str].
  - reflexivity.
  - destruct (Z.eqb_spec c 0); [done|]. by rewrite IH.
Qed.

(** What the digit block leaves in [buf]. *)
Lemma to_decimal_spec (fuel : nat) (x : Z) (buf temp : list Z) (n : nat) :
  10 ^ Z.of_nat n <= x < 10 ^ Z.of_nat (S n) ->
  (S n < fuel)%nat ->
  to_decimal fuel x buf temp
  = if ((S n <=? length temp) && (S n <=? length buf))%nat
    then Val (rev (lsd_digits (S n) x) ++ drop (S n) buf, Z.of_nat (S n))
    else OutOfBounds.
Proof.
  intros Hx Hfuel. pose proof (pow10_pos n).
  unfold to_decimal. destruct (Z.eqb_spec x 0); [lia|].
  pose proof (digits_loop_spec n x [] temp fuel Hx Hfuel) as Hd.
  cbn [app length Nat.add] in Hd. change (Z.of_nat 0) with 0 in Hd.
  rewrite Hd.
  destruct (S n <=? length temp)%nat; [|done].
  cbn [rbind fst snd andb].
  pose proof (reverse_loop_spec (lsd_digits (S n) x) (drop (S n) temp)
                [] buf fuel) as Hr.
  rewrite lsd_digits_length in Hr. cbn [app length Nat.add] in Hr.
  change (Z.of_nat 0) with 0 in Hr.
  by rewrite Hr.
Qed.

Lemma array_put_mid (pre mid : list Z) (x : Z) (rest : list Z) (i c : Z) :
  i = Z.of_nat (length pre) + Z.of_nat (length mid) ->
  array_put (pre ++ mid ++ x :: rest) i c = Val (pre ++ mid ++ c :: rest).
Proof.
  intros ->. rewrite !app_assoc. apply array_put_app.
  rewrite length_app. lia.
Qed.

Lemma array_put_cases (a : list Z) (i c : Z) :
  (exists a', array_put a i c = Val a' /\ length a' = length a)
  \/ array_put a i c = OutOfBounds.
Proof.
  unfold array_put.
  destruct ((0 <=? i) && (i <? Z.of_nat (length a))); [left|by right].
  eexists. split; [reflexivity|]. apply length_insert.
Qed.

Lemma pow10_le_digits (n : nat) (x : Z) :
  10 ^ Z.of_nat n <= x -> x < 10 ^ 7 -> (n < 7)%nat.
Proof.
  intros Hlo Hhi.
  destruct (Nat.lt_ge_cases n 7) as [|Hge]; [done|].
  assert (10 ^ 7 <= 10 ^ Z.of_nat n) by (apply Z.pow_le_mono_r; lia).
  lia.
Qed.

(** X15. The main.cpp heartbeat line.  For every value of the tick counter the
    text is built inside the 16-element arrays: it is the decimal numeral
    of [ticks / 1000] (digits only, at most seven, no leading zero, reading
    back to that number) followed by "s\r\n" and the terminator. *)
Theorem heartbeat_text_fits_and_reads_back
    (fuel : nat) (tickCount : Z) (buf temp : list Z) :
  is_u32 tickCount ->
  length buf = 16%nat -> length temp = 16%nat -> (8 <= fuel)%nat ->
  exists out digits,
    heartbeat_text fuel tickCount buf temp = Val out /\
    length out = 16%nat /\
    c_str out = digits ++ [115; 13; 10] /\
    Forall (fun c => 48 <= c <= 57) digits /\
    parse_decimal digits = tickCount / 1000 /\
    (1 <= length digits <= 7)%nat /\
    (digits = [48] \/ 10 ^ (Z.of_nat (length digits) - 1) <= tickCount / 1000).
Proof.
  unfold is_u32. intros Hu Hbuf Htemp Hfuel.
  unfold heartbeat_text. set (x := tickCount `div` 1000).
  assert (Hx : 0 <= x < 10 ^ 7).
  { unfold x. split; [apply Z.div_pos; lia|].
    apply Z.div_lt_upper_bound; lia. }
  assert (Htail : forall pre rest,
    (5 <= length rest)%nat ->
    (try b1 <- array_put (pre ++ rest) (Z.of_nat (length pre)) 115;
     try b2 <- array_put b1 (Z.of_nat (length pre) + 1) 13;
     try b3 <- array_put b2 (Z.of_nat (length pre) + 2) 10;
     array_put b3 (Z.of_nat (length pre) + 3) 0)
    = Val (pre ++ [115; 13; 10] ++ 0 :: drop 4 rest)).
  { intros pre rest Hlen.
    destruct rest as [|r0 [|r1 [|r2 [|r3 rest]]]]; cbn [length] in Hlen; try lia.
    rewrite (array_put_app pre r0) by done. cbn [rbind].
    change (pre ++ 115 :: r1 :: r2 :: r3 :: rest)
      with (pre ++ [115] ++ r1 :: r2 :: r3 :: rest).
    rewrite (array_put_mid pre [115] r1) by (cbn; lia). cbn [rbind].
    change (pre ++ [115] ++ 13 :: r2 :: r3 :: rest)
      with (pre ++ [115; 13] ++ r2 :: r3 :: rest).
    rewrite (array_put_mid pre [115; 13] r2) by (cbn; lia). cbn [rbind].
    change (pre ++ [115; 13] ++ 10 :: r3 :: rest)
      with (pre ++ [115; 13; 10] ++ r3 :: rest).
    rewrite (array_put_mid pre [115; 13; 10] r3) by (cbn; lia).
    reflexivity. }
  destruct (Z.eq_dec x 0) as [Hz|Hnz].
  - unfold to_decimal. rewrite Hz. cbn [Z.eqb].
    destruct buf as [|b0 buf]; [done|]. cbn [length] in Hbuf.
    pose proof (array_put_app [] b0 buf 0 48 eq_refl) as E0.
    cbn [app] in E0. rewrite E0. cbn [rbind fst snd].
    pose proof (Htail [48] buf ltac:(lia)) as E1.
    cbn [app length] in E1. change (Z.of_nat 1) with 1 in E1. rewrite E1.
    exists ([48] ++ [115; 13; 10] ++ 0 :: drop 4 buf), [48].
    split; [done|]. split.
    { cbn [app length]. rewrite length_drop. lia. }
    split; [|split; [|split; [|split]]].
    + change ([48] ++ [115; 13; 10] ++ 0 :: drop 4 buf)
        with ([48; 115; 13; 10] ++ 0 :: drop 4 buf).
      rewrite c_str_app; [done|]. repeat constructor; lia.
    + repeat constructor; lia.
    + reflexivity.
    + cbn. lia.
    + by left.
  - destruct (digits_count_exists 7 x) as (n & Hn & Hb); [lia|].
    rewrite (to_decimal_spec fuel x buf temp n Hb) by lia.
    rewrite Htemp, Hbuf.
    assert (Hle : (S n <=? 16)%nat = true) by (apply Nat.leb_le; lia).
    rewrite Hle. cbn [andb rbind fst snd].
    set (ds := lsd_digits (S n) x).
    assert (Hlen : length (rev ds) = S n)
      by (unfold ds; by rewrite length_rev, lsd_digits_length).
    pose proof (Htail (rev ds) (drop (S n) buf)
                  ltac:(rewrite length_drop; lia)) as E1.
    rewrite Hlen in E1. rewrite E1.
    assert (Hchars : Forall (fun c => 48 <= c <= 57) (rev ds))
      by (apply Forall_rev, lsd_digits_chars).
    exists (rev ds ++ [115; 13; 10] ++ 0 :: drop 4 (drop (S n) buf)), (rev ds).
    split; [done|]. split.
    { rewrite !length_app, Hlen. cbn [length]. rewrite !length_drop. lia. }
    split; [|split; [|split; [|split]]].
    + rewrite app_assoc, c_str_app; [done|].
      apply Forall_app. split.
      * eapply Forall_impl; [exact Hchars|]. cbn. intros; lia.
      * repeat constructor; lia.
    + exact Hchars.
    + apply parse_decimal_lsd. lia.
    + rewrite Hlen. lia.
    + right. rewrite Hlen.
      replace (Z.of_nat (S n) - 1) with (Z.of_nat n) by lia. lia.
Qed.

Lemma heartbeat_text_fits_and_reads_back_witness :
  exists out digits,
    heartbeat_text 8 0xFFFFFFFF (replicate 16 0x41) (replicate 16 0x42)
    = Val out /\
    c_str out = digits ++ [115; 13; 10] /\
    parse_decimal digits = 4294967.
Proof.
  destruct (heartbeat_text_fits_and_reads_back 8 0xFFFFFFFF
              (replicate 16 0x41) (replicate 16 0x42))
    as (out & digits & Hrun & _ & Hstr & _ & Hparse & _);
    [unfold is_u32; lia | reflexivity | reflexivity | lia |].
  exists out, digits. split; [exact Hrun|]. split; [exact Hstr|exact Hparse].
Defined.

Lemma rate_tail_fits (pre rest : list Z) :
  (5 <= length rest)%nat ->
  (try b1 <- array_put (pre ++ rest) (Z.of_nat (length pre)) 109;
   try b2 <- array_put b1 (Z.of_nat (length pre) + 1) 115;
   try b3 <- array_put b2 (Z.of_nat (length pre) + 2) 13;
   try b4 <- array_put b3 (Z.of_nat (length pre) + 3) 10;
   array_put b4 (Z.of_nat (length pre) + 4) 0)
  = Val (pre ++ [109; 115; 13; 10] ++ 0 :: drop 5 rest).
Proof.
  intros Hlen.
  destruct rest as [|r0 [|r1 [|r2 [|r3 [|r4 rest]]]]];
    cbn [length] in Hlen; try lia.
  rewrite (array_put_app pre r0) by done. cbn [rbind].
  change (pre ++ 109 :: r1 :: r2 :: r3 :: r4 :: rest)
    with (pre ++ [109] ++ r1 :: r2 :: r3 :: r4 :: rest).
  rewrite (array_put_mid pre [109] r1) by (cbn; lia). cbn [rbind].
  change (pre ++ [109] ++ 115 :: r2 :: r3 :: r4 :: rest)
    with (pre ++ [109; 115] ++ r2 :: r3 :: r4 :: rest).
  rewrite (array_put_mid pre [109; 115] r2) by (cbn; lia). cbn [rbind].
  change (pre ++ [109; 115] ++ 13 :: r3 :: r4 :: rest)
    with (pre ++ [109; 115; 13] ++ r3 :: r4 :: rest).
  rewrite (array_put_mid pre [109; 115; 13] r3) by (cbn; lia). cbn [rbind].
  change (pre ++ [109; 115; 13] ++ 10 :: r4 :: rest)
    with (pre ++ [109; 115; 13; 10] ++ r4 :: rest).
  rewrite (array_put_mid pre [109; 115; 13; 10] r4) by (cbn; lia).
  reflexivity.
Qed.

Lemma rate_tail_overruns (b : list Z) (idx : Z) :
  length b = 8%nat -> 4 <= idx ->
  (try b1 <- array_put b idx 109;
   try b2 <- array_put b1 (idx + 1) 115;
   try b3 <- array_put b2 (idx + 2) 13;
   try b4 <- array_put b3 (idx + 3) 10;
   array_put b4 (idx + 4) 0)
  = OutOfBounds.
Proof.
  intros Hlen Hidx.
  destruct (array_put_cases b idx 109) as [(b1 & -> & H1)| ->]; [|done].
  cbn [rbind].
  destruct (array_put_cases b1 (idx + 1) 115) as [(b2 & -> & H2)| ->]; [|done].
  cbn [rbind].
  destruct (array_put_cases b2 (idx + 2) 13) as [(b3 & -> & H3)| ->]; [|done].
  cbn [rbind].
  destruct (array_put_cases b3 (idx + 3) 10) as [(b4 & -> & H4)| ->]; [|done].
  cbn [rbind]. apply array_put_outside. lia.
Qed.

Lemma rate_text_in_bounds (fuel : nat) (blinkRate : Z) (buf temp : list Z) :
  0 <= blinkRate < 1000 ->
  length buf = 8%nat -> length temp = 8%nat -> (4 <= fuel)%nat ->
  exists out digits,
    rate_text fuel blinkRate buf temp = Val out /\
    length out = 8%nat /\
    c_str out = digits ++ [109; 115; 13; 10] /\
    Forall (fun c => 48 <= c <= 57) digits /\
    parse_decimal digits = blinkRate.
Proof.
  intros Hx Hbuf Htemp Hfuel. unfold rate_text.
  destruct (Z.eq_dec blinkRate 0) as [->|Hnz].
  - unfold to_decimal. cbn [Z.eqb].
    destruct buf as [|b0 buf]; [done|]. cbn [length] in Hbuf.
    pose proof (array_put_app [] b0 buf 0 48 eq_refl) as E0.
    cbn [app] in E0. rewrite E0. cbn [rbind fst snd].
    pose proof (rate_tail_fits [48] buf ltac:(lia)) as E1.
    cbn [app length] in E1. change (Z.of_nat 1) with 1 in E1. rewrite E1.
    exists ([48] ++ [109; 115; 13; 10] ++ 0 :: drop 5 buf), [48].
    split; [done|]. split.
    { cbn [app length]. rewrite length_drop. lia. }
    split; [|split].
    + change ([48] ++ [109; 115; 13; 10] ++ 0 :: drop 5 buf)
        with ([48; 109; 115; 13; 10] ++ 0 :: drop 5 buf).
      rewrite c_str_app; [done|]. repeat constructor; lia.
    + repeat constructor; lia.
    + reflexivity.
  - destruct (digits_count_exists 3 blinkRate) as (n & Hn & Hb);
      [change (10 ^ Z.of_nat 3) with 1000; lia|].
    rewrite (to_decimal_spec fuel blinkRate buf temp n Hb) by lia.
    rewrite Htemp, Hbuf.
    assert (Hle : (S n <=? 8)%nat = true) by (apply Nat.leb_le; lia).
    rewrite Hle. cbn [andb rbind fst snd].
    set (ds := lsd_digits (S n) blinkRate).
    assert (Hlen : length (rev ds) = S n)
      by (unfold ds; by rewrite length_rev, lsd_digits_length).
    pose proof (rate_tail_fits (rev ds) (drop (S n) buf)
                  ltac:(rewrite length_drop; lia)) as E1.
    rewrite Hlen in E1. rewrite E1.
    assert (Hchars : Forall (fun c => 48 <= c <= 57) (rev ds))
      by (apply Forall_rev, lsd_digits_chars).
    exists (rev ds ++ [109; 115; 13; 10] ++ 0 :: drop 5 (drop (S n) buf)),
           (rev ds).
    split; [done|]. split.
    { rewrite !length_app, Hlen. cbn [length]. rewrite !length_drop. lia. }
    split; [|split].
    + rewrite app_assoc, c_str_app; [done|].
      apply Forall_app. split.
      * eapply Forall_impl; [exact Hchars|]. cbn. intros; lia.
      * repeat constructor; lia.
    + exact Hchars.
    + apply parse_decimal_lsd. lia.
Qed.

Lemma rate_text_out_of_bounds (fuel : nat) (blinkRate : Z) (buf temp : list Z) :
  1000 <= blinkRate < 2 ^ 32 ->
  length buf = 8%nat -> length temp = 8%nat -> (11 <= fuel)%nat ->
  rate_text fuel blinkRate buf temp = OutOfBounds.
Proof.
  intros Hx Hbuf Htemp Hfuel. unfold rate_text.
  destruct (digits_count_exists 10 blinkRate) as (n & Hn & Hb);
    [change (10 ^ Z.of_nat 10) with 10000000000; lia|].
  assert (Hn3 : (3 <= n)%nat).
  { destruct n as [|[|[|n]]]; [| | |lia].
    - change (10 ^ Z.of_nat 1) with 10 in Hb. lia.
    - change (10 ^ Z.of_nat 2) with 100 in Hb. lia.
    - change (10 ^ Z.of_nat 3) with 1000 in Hb. lia. }
  rewrite (to_decimal_spec fuel blinkRate buf temp n Hb) by lia.
  rewrite Htemp, Hbuf.
  destruct (S n <=? 8)%nat eqn:Hfit; [|done].
  apply Nat.leb_le in Hfit. cbn [andb rbind fst snd].
  apply rate_tail_overruns; [|lia].
  rewrite length_app, length_rev, lsd_digits_length, length_drop. lia.
Qed.

(** X16. The blinky.cpp rate line is built in 8-element arrays.  A rate below
    1000 fits: the text is its decimal numeral followed by "ms\r\n" and
    the terminator.  From 1000 up the block writes outside an array: with
    four digits the terminator goes to [buf[8]], one past the end. *)
Theorem rate_text_fits_only_below_1000
    (fuel : nat) (blinkRate : Z) (buf temp : list Z) :
  is_u32 blinkRate ->
  length buf = 8%nat -> length temp = 8%nat -> (11 <= fuel)%nat ->
  (blinkRate < 1000 ->
   exists out digits,
     rate_text fuel blinkRate buf temp = Val out /\
     length out = 8%nat /\
     c_str out = digits ++ [109; 115; 13; 10] /\
     Forall (fun c => 48 <= c <= 57) digits /\
     parse_decimal digits = blinkRate) /\
  (1000 <= blinkRate -> rate_text fuel blinkRate buf temp = OutOfBounds).
Proof.
  unfold is_u32. intros Hu Hbuf Htemp Hfuel. split.
  - intros Hlt. apply rate_text_in_bounds; (done || lia).
  - intros Hge. apply rate_text_out_of_bounds; (done || lia).
Qed.

Lemma rate_text_fits_only_below_1000_witness :
  (exists out digits,
     rate_text 11 250 (replicate 8 0x41) (replicate 8 0x42) = Val out /\
     c_str out = digits ++ [109; 115; 13; 10] /\
     parse_decimal digits = 250) /\
  rate_text 11 1000 (replicate 8 0x41) (replicate 8 0x42) = OutOfBounds.
Proof.
  destruct (rate_text_fits_only_below_1000 11 250
              (replicate 8 0x41) (replicate 8 0x42))
    as [Hfit _]; [unfold is_u32; lia | reflexivity | reflexivity | lia |].
  destruct (rate_text_fits_only_below_1000 11 1000
              (replicate 8 0x41) (replicate 8 0x42))
    as [_ Hover]; [unfold is_u32; lia | reflexivity | reflexivity | lia |].
  split.
  - destruct (Hfit ltac:(lia)) as (out & digits & Hrun & _ & Hstr & _ & Hp).
    exists out, digits. split; [exact Hrun|]. split; [exact Hstr|exact Hp].
  - apply Hover. lia.
Defined.

Lemma presses_spec (n : nat) :
  presses n = Val (Z.of_nat (n mod 4), default 0 (rates !! (n mod 4)%nat)).
Proof.
  induction n as [|n IH]; [done|].
  cbn [presses]. rewrite IH. cbn [rbind fst].
  assert (Hm : (n mod 4 < 4)%nat) by (apply Nat.mod_upper_bound; lia).
  assert (HS : (S n mod 4 = (n mod 4 + 1) mod 4)%nat).
  { replace (S n) with (n + 1)%nat by lia.
    rewrite (Nat.Div0.add_mod n 1 4).
    reflexivity. }
  rewrite HS.
  destruct (n mod 4)%nat as [|[|[|[|k]]]]; [done..|lia].
Qed.

(** X17. The button handler of blinky.cpp steps through its four rates in a
    cycle: after [n] presses the index is [n mod 4], always inside the
    table, the rates come round again after four presses, and the rate
    line overruns its buffer exactly on the presses that select 1000
    ([n mod 4 = 3]). *)
Theorem blinky_presses_cycle (n fuel : nat) (buf temp : list Z) :
  length buf = 8%nat -> length temp = 8%nat -> (11 <= fuel)%nat ->
  exists rateIndex blinkRate,
    presses n = Val (rateIndex, blinkRate) /\
    rateIndex = Z.of_nat (n mod 4) /\
    rates !! (n mod 4)%nat = Some blinkRate /\
    presses (n + 4) = presses n /\
    (rate_text fuel blinkRate buf temp = OutOfBounds <-> (n mod 4 = 3)%nat).
Proof.
  intros Hbuf Htemp Hfuel.
  assert (Hm : (n mod 4 < 4)%nat) by (apply Nat.mod_upper_bound; lia).
  assert (H4 : ((n + 4) mod 4 = n mod 4)%nat).
  { rewrite (Nat.Div0.add_mod n 4 4). change (4 mod 4)%nat with 0%nat.
    rewrite Nat.add_0_r. apply Nat.Div0.mod_mod. }
  exists (Z.of_nat (n mod 4)), (default 0 (rates !! (n mod 4)%nat)).
  split; [apply presses_spec|]. split; [done|].
  split; [|split].
  - destruct (n mod 4)%nat as [|[|[|[|k]]]]; [done..|lia].
  - by rewrite !presses_spec, H4.
  - assert (Hfits : forall r, 0 <= r < 1000 ->
              rate_text fuel r buf temp <> OutOfBounds).
    { intros r Hr.
      destruct (rate_text_in_bounds fuel r buf temp)
        as (out & ds & -> & _); (done || lia). }
    destruct (n mod 4)%nat as [|[|[|[|k]]]]; [..|lia].
    + change (default 0 (rates !! 0%nat)) with 500.
      split; [intros H; exfalso; revert H; apply Hfits; lia|lia].
    + change (default 0 (rates !! 1%nat)) with 250.
      split; [intros H; exfalso; revert H; apply Hfits; lia|lia].
    + change (default 0 (rates !! 2%nat)) with 100.
      split; [intros H; exfalso; revert H; apply Hfits; lia|lia].
    + change (default 0 (rates !! 3%nat)) with 1000.
      split; [done|]. intros _.
      apply rate_text_out_of_bounds; (done || lia).
Qed.

Lemma blinky_presses_cycle_witness :
  exists rateIndex blinkRate,
    presses 3 = Val (rateIndex, blinkRate) /\
    rateIndex = 3 /\ blinkRate = 1000 /\
    rate_text 11 blinkRate (replicate 8 0x41) (replicate 8 0x42)
    = OutOfBounds.
Proof.
  destruct (blinky_presses_cycle 3 11 (replicate 8 0x41) (replicate 8 0x42))
    as (i & r & Hp & Hi & Hr & _ & Hover); [reflexivity | reflexivity | lia |].
  exists i, r. split; [exact Hp|]. split; [exact Hi|].
  split; [by injection Hr|]. by apply Hover.
Defined.

End Formatting.
